(** * arpingall: the routing-table reader, the default-gateway index,
      the interface enumerator and the probe dispatcher

    A shallow embedding of [arpingall.go].  Go strings are byte sequences and
    are embedded as [string] (a sequence of 8-bit [ascii]); a Go [byte] value
    is an [N] below 256; [net.IP] is a byte slice that may be [nil].  The
    functions of Go's standard library the program calls ([hex.DecodeString],
    [bufio.Reader.ReadString], [strings.Fields], [net.IP.Equal], [net.IP.To4],
    [net.IP.String], [net.ParseCIDR], [net.HardwareAddr.String],
    [exec.Cmd.Output]) are embedded next to the program's own functions, under
    the names they have in Go. *)

From Stdlib Require Import NArith ZArith Ascii String List Lia.
From stdpp Require Import base option list strings gmap.
From Equations Require Import Equations.
Import ListNotations.

Local Open Scope N_scope.

(** ** Bytes and strings *)

(** A Go [byte]: a number below 256. *)
Definition byte := N.

Definition byte_of_ascii (c : ascii) : byte := N_of_ascii c.

Definition LF : ascii := "010"%char.
Definition nl : string := String LF EmptyString.

(** ** Errors and formatted output *)

(** Go [error] values the program can meet.  [fmt_Errorf] keeps the format and
    its arguments as the call has them; [ArgError e] stands for the text
    [e.Error()] (what [%v] prints for an error, and what the program passes
    when it calls [err.Error()] itself). *)
Inductive error : Type :=
| io_EOF
| hex_ErrLength
| hex_InvalidByteError (b : byte)
| fmt_Errorf (format : string) (args : list fmt_arg)
| os_error (msg : string)
with fmt_arg : Type :=
| ArgString (s : string)
| ArgInt (n : Z)
| ArgError (e : error).

(** ** [encoding/hex] *)

(** [reverseHexTable]: the value of a hexadecimal digit, [0xff] for any other
    byte.  Both letter cases are digits. *)
Definition reverseHexTable (c : ascii) : byte :=
  let n := N_of_ascii c in
  if (48 <=? n) && (n <=? 57) then n - 48
  else if (97 <=? n) && (n <=? 102) then n - 97 + 10
  else if (65 <=? n) && (n <=? 70) then n - 65 + 10
  else 255.

(** [hex.Decode]: pairs of digits, left to right; the bytes decoded before an
    error are returned with it.  An odd length is reported after the pairs,
    and after an invalid last character. *)
Fixpoint hex_Decode (src : string) : list byte * option error :=
  match src with
  | EmptyString => ([], None)
  | String p EmptyString =>
      if 15 <? reverseHexTable p
      then ([], Some (hex_InvalidByteError (byte_of_ascii p)))
      else ([], Some hex_ErrLength)
  | String p (String q rest) =>
      let a := reverseHexTable p in
      let b := reverseHexTable q in
      if 15 <? a then ([], Some (hex_InvalidByteError (byte_of_ascii p)))
      else if 15 <? b then ([], Some (hex_InvalidByteError (byte_of_ascii q)))
      else
        let '(bs, err) := hex_Decode rest in
        (N.lor (N.shiftl a 4) b :: bs, err)
  end.

Definition hex_DecodeString (s : string) : list byte * option error :=
  hex_Decode s.

(** ** [net.IP] *)

(** A [net.IP] is a byte slice; [None] is the [nil] slice, which differs from
    an empty one under [== nil]. *)
Definition IP := option (list byte).

Definition IP_len (ip : IP) : nat :=
  match ip with
  | None => 0%nat
  | Some bs => length bs
  end.

Definition IPv4len : nat := 4.
Definition IPv6len : nat := 16.

(** ** [parseIP] *)

Definition ErrOnlyIPv4 : error := fmt_Errorf "only IPv4 is supported" [].

(** [parseIP]: hex-decode the field, require exactly four bytes, and reverse
    them. *)
Definition parseIP (str : string) : IP * option error :=
  let '(bytes, err) := hex_DecodeString str in
  match err with
  | Some e => (None, Some e)
  | None =>
      match bytes with
      | [b0; b1; b2; b3] => (Some [b3; b2; b1; b0], None)
      | _ => (None, Some ErrOnlyIPv4)
      end
  end.

(** ** [unicode/utf8] and [unicode.IsSpace] *)

(** [utf8.DecodeRuneInString]: the rune at the head of [s] and its width in
    bytes.  A byte that starts no well-formed encoding decodes to
    [RuneError] with width 1; the empty string to [RuneError] with width 0. *)
Definition RuneError : N := 65533.

Definition in_range (lo hi b : N) : bool := (lo <=? b) && (b <=? hi).

Definition DecodeRuneInString (s : string) : N * nat :=
  match s with
  | EmptyString => (RuneError, 0%nat)
  | String c0 t =>
      let s0 := N_of_ascii c0 in
      if s0 <? 128 then (s0, 1%nat)
      else if (s0 <? 194) || (244 <? s0) then (RuneError, 1%nat)
      else
        (* size of the encoding and the range accepted for the second byte *)
        let sz := if s0 <? 224 then 2%nat else if s0 <? 240 then 3%nat else 4%nat in
        let '(lo, hi) :=
          if s0 =? 224 then (160, 191)
          else if s0 =? 237 then (128, 159)
          else if s0 =? 240 then (144, 191)
          else if s0 =? 244 then (128, 143)
          else (128, 191) in
        if (String.length s <? sz)%nat then (RuneError, 1%nat)
        else
          match t with
          | EmptyString => (RuneError, 1%nat)
          | String c1 t1 =>
              let s1 := N_of_ascii c1 in
              if negb (in_range lo hi s1) then (RuneError, 1%nat)
              else if (sz <=? 2)%nat
              then (N.lor (N.shiftl (N.land s0 31) 6) (N.land s1 63), 2%nat)
              else
                match t1 with
                | EmptyString => (RuneError, 1%nat)
                | String c2 t2 =>
                    let s2 := N_of_ascii c2 in
                    if negb (in_range 128 191 s2) then (RuneError, 1%nat)
                    else if (sz <=? 3)%nat
                    then (N.lor (N.lor (N.shiftl (N.land s0 15) 12)
                                       (N.shiftl (N.land s1 63) 6))
                                (N.land s2 63), 3%nat)
                    else
                      match t2 with
                      | EmptyString => (RuneError, 1%nat)
                      | String c3 _ =>
                          let s3 := N_of_ascii c3 in
                          if negb (in_range 128 191 s3) then (RuneError, 1%nat)
                          else (N.lor (N.lor (N.lor (N.shiftl (N.land s0 7) 18)
                                                    (N.shiftl (N.land s1 63) 12))
                                             (N.shiftl (N.land s2 63) 6))
                                      (N.land s3 63), 4%nat)
                      end
                end
          end
  end.

(** [unicode.IsSpace]: the Latin-1 spaces listed in its switch, and beyond
    Latin-1 the code points of the [White_Space] range table. *)
Definition unicode_IsSpace (r : N) : bool :=
  if r <=? 255
  then (in_range 9 13 r) || (r =? 32) || (r =? 133) || (r =? 160)
  else (r =? 5760) || (in_range 8192 8202 r) || (in_range 8232 8233 r)
       || (r =? 8239) || (r =? 8287) || (r =? 12288).

(** ** [strings.Fields] *)

(** [strings.FieldsFunc s unicode.IsSpace], which is what [strings.Fields]
    returns (its ASCII fast path computes the same fields).  The loop ranges
    over the runes of [s]; [skip] counts the bytes of the current rune still
    to pass, [keep] says whether they belong to a field, and [cur] is the
    field being collected (empty when no field is open). *)
Definition flush_field (cur : string) : list string :=
  match cur with
  | EmptyString => []
  | _ => [cur]
  end.

Fixpoint FieldsFunc_from (skip : nat) (keep : bool) (cur : string) (s : string)
  : list string :=
  match s with
  | EmptyString => flush_field cur
  | String c rest =>
      match skip with
      | S k =>
          FieldsFunc_from k keep (if keep then cur +:+ String c EmptyString else cur) rest
      | O =>
          let '(r, size) := DecodeRuneInString s in
          if unicode_IsSpace r
          then flush_field cur ++ FieldsFunc_from (Nat.pred size) false EmptyString rest
          else FieldsFunc_from (Nat.pred size) true (cur +:+ String c EmptyString) rest
      end
  end.

Definition strings_Fields (s : string) : list string :=
  FieldsFunc_from 0 false EmptyString s.

(** ** [bufio.Reader] *)

(** The reader of [GetRoutes]: over the unread content of the opened file, or
    over the [nil] file that a failed [os.Open] leaves, every read of which
    fails with [os.ErrInvalid]. *)
Inductive Reader : Type :=
| FileReader (unread : string)
| NilReader.

Definition os_ErrInvalid : error := os_error "invalid argument".

(** [ReadString] on file content: up to and including the first [delim]; when
    the content ends first, what was read and [io.EOF]. *)
Fixpoint ReadString_from (delim : ascii) (s : string) : string * option error * string :=
  match s with
  | EmptyString => (EmptyString, Some io_EOF, EmptyString)
  | String c s' =>
      if Ascii.eqb c delim then (String c EmptyString, None, s')
      else
        let '(line, err, rest) := ReadString_from delim s' in
        (String c line, err, rest)
  end.

Definition ReadString (delim : ascii) (r : Reader) : string * option error * Reader :=
  match r with
  | FileReader s =>
      let '(line, err, rest) := ReadString_from delim s in
      (line, err, FileReader rest)
  | NilReader => (EmptyString, Some os_ErrInvalid, NilReader)
  end.

Definition Reader_unread (r : Reader) : nat :=
  match r with
  | FileReader s => String.length s
  | NilReader => 0%nat
  end.

(** ** Routes *)

Record Route : Type := mkRoute {
  Interface : string;
  Destination : IP;
  Gateway : IP
}.

(** What one pass through the body of a loop leaves: a [return] of the
    enclosing function, or the loop's variables for the next iteration. *)
Inductive flow (R S : Type) : Type :=
| Return (r : R)
| Next (s : S).
Arguments Return {R S} r.
Arguments Next {R S} s.

Definition ErrWrongFields (fields : list string) (line : string) : error :=
  fmt_Errorf "wrong number of fields (expected at least 3, got %d): %s"
             [ArgInt (Z.of_nat (length fields)); ArgString line].

(** The body of the loop of [GetRoutes] for a line that [ReadString] returned
    without [io.EOF]: the field count is checked first, on every line; the
    first line that passes it is skipped as the header; any other line adds a
    route, or returns the error of its destination or of its gateway.
    [lineNum] is a Go [int]; it counts lines of one file and is embedded
    without its bound. *)
Definition GetRoutes_body (line : string) (lineNum : nat) (routes : list Route)
  : flow (list Route * option error) (nat * list Route) :=
  let fields := strings_Fields line in
  if (length fields <? 3)%nat then Return ([], Some (ErrWrongFields fields line))
  else
    let lineNum := S lineNum in
    if (lineNum =? 1)%nat then Next (lineNum, routes)
    else
      let '(ip, err) := parseIP (nth 1 fields EmptyString) in
      match err with
      | Some e => Return ([], Some e)
      | None =>
          let '(ip', err') := parseIP (nth 2 fields EmptyString) in
          match err' with
          | Some e => Return ([], Some e)
          | None =>
              Next (lineNum,
                    routes ++ [mkRoute (nth 0 fields EmptyString) ip ip'])
          end
      end.

Definition inspect {A : Type} (a : A) : {b : A | a = b} := exist _ a eq_refl.

Definition is_EOF (err : option error) : bool :=
  match err with
  | Some io_EOF => true
  | _ => false
  end.

Lemma ReadString_from_length delim s line err rest :
  ReadString_from delim s = (line, err, rest) ->
  (String.length line + String.length rest = String.length s)%nat.
Proof.
  revert line err rest.
  induction s as [|c s IH]; intros line err rest H; simpl in H.
  - injection H as <- _ <-. reflexivity.
  - destruct (Ascii.eqb c delim).
    + injection H as <- _ <-. reflexivity.
    + destruct (ReadString_from delim s) as [[l e] r].
      injection H as <- _ <-. simpl. f_equal. eapply IH. reflexivity.
Qed.

Lemma ReadString_unread delim r line err r' :
  ReadString delim r = (line, err, r') ->
  (String.length line + Reader_unread r' = Reader_unread r)%nat.
Proof.
  destruct r as [s|]; simpl.
  - destruct (ReadString_from delim s) as [[l e] rest] eqn:E.
    intros H. injection H as <- _ <-. simpl.
    eapply ReadString_from_length. exact E.
  - intros H. injection H as <- _ <-. reflexivity.
Qed.

Lemma GetRoutes_body_Next line lineNum routes st :
  GetRoutes_body line lineNum routes = Next st -> line <> EmptyString.
Proof.
  intros H ->. unfold GetRoutes_body in H. simpl in H. discriminate.
Qed.

Lemma String_length_pos s : s <> EmptyString -> (0 < String.length s)%nat.
Proof. destruct s; [congruence | simpl; lia]. Qed.

(** The loop of [GetRoutes]: read a line; stop at [io.EOF] with the routes
    collected so far (a last line that no newline ends is dropped with it);
    otherwise run the body on the line. *)
Equations? GetRoutes_loop (scanner : Reader) (lineNum : nat) (routes : list Route)
  : list Route * option error by wf (Reader_unread scanner) lt :=
  GetRoutes_loop scanner lineNum routes with inspect (ReadString LF scanner) := {
    | exist _ (line, err, scanner') Hread with is_EOF err := {
      | true := (routes, None)
      | false with inspect (GetRoutes_body line lineNum routes) := {
        | exist _ (Return r) _ := r
        | exist _ (Next (lineNum', routes')) Hbody :=
            GetRoutes_loop scanner' lineNum' routes' } } }.
Proof.
  apply ReadString_unread in Hread.
  apply GetRoutes_body_Next, String_length_pos in Hbody. lia.
Qed.

(** The loop's own equation: one iteration, then the loop again. *)
Lemma GetRoutes_loop_eq scanner lineNum routes :
  GetRoutes_loop scanner lineNum routes =
  let '(line, err, scanner') := ReadString LF scanner in
  if is_EOF err then (routes, None)
  else match GetRoutes_body line lineNum routes with
       | Return r => r
       | Next (lineNum', routes') => GetRoutes_loop scanner' lineNum' routes'
       end.
Proof.
  rewrite GetRoutes_loop_equation_1. unfold GetRoutes_loop_unfold_clause_1.
  destruct (inspect (ReadString LF scanner)) as [[[line err] scanner'] E].
  symmetry. rewrite E at 1. symmetry.
  destruct (is_EOF err); [reflexivity|].
  cbn beta iota delta [GetRoutes_loop_unfold_clause_1_clause_1].
  unfold GetRoutes_loop_unfold_clause_1_clause_1_clause_2.
  destruct (inspect (GetRoutes_body line lineNum routes)) as [[r|[ln rs]] E'];
    symmetry; rewrite E' at 1; reflexivity.
Qed.

(** ** Output of the program *)

(** What the program writes and runs, in order: the logger's entries (without
    the logger's own time prefix), standard output, and the external
    command.  Formats and arguments are kept as the calls have them. *)
Inductive Event : Type :=
| log_Print (args : list fmt_arg)
| log_Printf (format : string) (args : list fmt_arg)
| fmt_Printf (format : string) (args : list fmt_arg)
| fmt_Println (s : string)
| exec_Command (name : string) (args : list string).

(** ** [GetRoutes] *)

(** [GetRoutes], given what [os.Open "/proc/net/route"] returned: the content
    of the file, or the error.  A failed open is logged and the loop then
    reads from the [nil] file. *)
Definition GetRoutes (file : string + error)
  : list Event * (list Route * option error) :=
  match file with
  | inl content => ([], GetRoutes_loop (FileReader content) 0 [])
  | inr err =>
      ([log_Print [ArgString "Can't open route file: "; ArgError err]],
       GetRoutes_loop NilReader 0 [])
  end.

(** ** [net.IP] methods *)

Definition IP_bytes (ip : IP) : list byte := default [] ip.

Definition v4InV6Prefix : list byte := [0; 0; 0; 0; 0; 0; 0; 0; 0; 0; 255; 255].

Definition bytes_eqb (a b : list byte) : bool :=
  bool_decide (a = b).

(** [net.IP.Equal]: equal as addresses; a 4-byte address equals its 16-byte
    IPv4-mapped form. *)
Definition IP_Equal (ip x : IP) : bool :=
  let a := IP_bytes ip in
  let b := IP_bytes x in
  if (length a =? length b)%nat then bytes_eqb a b
  else if (length a =? IPv4len)%nat && (length b =? IPv6len)%nat
  then bytes_eqb (firstn 12 b) v4InV6Prefix && bytes_eqb a (skipn 12 b)
  else if (length a =? IPv6len)%nat && (length b =? IPv4len)%nat
  then bytes_eqb (firstn 12 a) v4InV6Prefix && bytes_eqb (skipn 12 a) b
  else false.

(** [net.IP.To4]: the 4-byte form of an IPv4 address, [nil] for anything
    else. *)
Definition IP_To4 (ip : IP) : IP :=
  let a := IP_bytes ip in
  if (length a =? IPv4len)%nat then ip
  else if (length a =? IPv6len)%nat
          && bytes_eqb (firstn 10 a) (repeat 0 10)
          && (nth 10 a 0 =? 255) && (nth 11 a 0 =? 255)
  then Some (firstn 4 (skipn 12 a))
  else None.

(** Decimal digits of a byte, as [netip] appends them. *)
Definition digit (d : N) : ascii := ascii_of_N (48 + d).

Definition appendDecimal (x : byte) : string :=
  (if 100 <=? x then String (digit (x / 100)) EmptyString else EmptyString)
  +:+ (if 10 <=? x then String (digit ((x / 10) mod 10)) EmptyString else EmptyString)
  +:+ String (digit (x mod 10)) EmptyString.

Definition dotted_quad (a b c d : byte) : string :=
  appendDecimal a +:+ "." +:+ appendDecimal b +:+ "." +:+
  appendDecimal c +:+ "." +:+ appendDecimal d.

(** Lower-case hexadecimal, two digits a byte ([hexDigit] in package
    [net]). *)
Definition hexDigit (d : N) : ascii :=
  if d <? 10 then ascii_of_N (48 + d) else ascii_of_N (97 + (d - 10)).

Fixpoint hexString (bs : list byte) : string :=
  match bs with
  | [] => EmptyString
  | b :: rest =>
      String (hexDigit (N.shiftr b 4)) (String (hexDigit (N.land b 15)) (hexString rest))
  end.

(** [net.HardwareAddr.String]: empty for an empty address, else the bytes in
    hexadecimal with colons between them. *)
Fixpoint HardwareAddr_String_from (bs : list byte) : string :=
  match bs with
  | [] => EmptyString
  | b :: rest =>
      ":" +:+ String (hexDigit (N.shiftr b 4)) (String (hexDigit (N.land b 15))
        (HardwareAddr_String_from rest))
  end.

Definition HardwareAddr_String (a : list byte) : string :=
  match a with
  | [] => EmptyString
  | b :: rest =>
      String (hexDigit (N.shiftr b 4)) (String (hexDigit (N.land b 15))
        (HardwareAddr_String_from rest))
  end.

(** ** The program *)

(** A run that may end in [os.Exit]. *)
Inductive outcome (A : Type) : Type :=
| Done (a : A)
| Exit (code : Z).
Arguments Done {A} a.
Arguments Exit {A} code.

Definition zero : IP := Some [0; 0; 0; 0].

(** The loop of [getDefaultRoutes]: every route whose destination equals
    0.0.0.0 is stored under its interface name, over what is there. *)
Fixpoint getDefaultRoutes_loop (routes : list Route) (defaultRoutes : gmap string IP)
  : gmap string IP :=
  match routes with
  | [] => defaultRoutes
  | r :: rest =>
      if IP_Equal (Destination r) zero
      then getDefaultRoutes_loop rest (<[Interface r := Gateway r]> defaultRoutes)
      else getDefaultRoutes_loop rest defaultRoutes
  end.

(** [getDefaultRoutes]: an error of [GetRoutes] is printed and ends the
    process with status 1. *)
Definition getDefaultRoutes (file : string + error)
  : list Event * outcome (gmap string IP) :=
  let '(log, (routes, err)) := GetRoutes file in
  match err with
  | Some e => (log ++ [fmt_Printf "ERROR: %v" [ArgError e]], Exit 1%Z)
  | None => (log, Done (getDefaultRoutes_loop routes ∅))
  end.

(** A Go map read: the zero value, [nil], for a key that is not there. *)
Definition map_index (m : gmap string IP) (k : string) : IP :=
  default None (m !! k).

(** A system interface as package [net] gives it: name, hardware address and
    what [Addrs] returns, each address already as its [String]. *)
Record net_Interface : Type := mkInterface {
  Name : string;
  HardwareAddr : list byte;
  Addrs : list string + error
}.

Record iface : Type := mkIface {
  name : string;
  mac : string;
  addr : string
}.

(** The inner loop of [localAddresses]: one record per address, appended. *)
Fixpoint localAddresses_addrs (i : net_Interface) (addrs : list string)
  (interfaceList : list iface) : list iface :=
  match addrs with
  | [] => interfaceList
  | a :: rest =>
      localAddresses_addrs i rest
        (interfaceList ++ [mkIface (Name i) (HardwareAddr_String (HardwareAddr i)) a])
  end.

(** The outer loop: an interface without a hardware address is passed over;
    one whose addresses cannot be listed is logged and passed over. *)
Fixpoint localAddresses_loop (ifaces : list net_Interface) (interfaceList : list iface)
  : list Event * list iface :=
  match ifaces with
  | [] => ([], interfaceList)
  | i :: rest =>
      if String.eqb (HardwareAddr_String (HardwareAddr i)) EmptyString
      then localAddresses_loop rest interfaceList
      else
        match Addrs i with
        | inr err =>
            let '(log, l) := localAddresses_loop rest interfaceList in
            (log_Print [ArgError (fmt_Errorf ("localAddresses: %v" +:+ nl) [ArgError err])] :: log, l)
        | inl addrs =>
            localAddresses_loop rest (localAddresses_addrs i addrs interfaceList)
        end
  end.

(** [localAddresses], given what [net.Interfaces] returned. *)
Definition localAddresses (interfaces : list net_Interface + error)
  : list Event * (list iface * option error) :=
  match interfaces with
  | inr err =>
      ([log_Print [ArgError (fmt_Errorf ("localAddresses: %v" +:+ nl) [ArgError err])]],
       ([], Some err))
  | inl ifaces =>
      let '(log, l) := localAddresses_loop ifaces [] in
      (log, (l, None))
  end.

(** What running a command leaves: its standard output, its standard error
    and the error of the run (a failed start or a non-zero exit). *)
Record CmdResult : Type := mkCmdResult {
  cmd_stdout : string;
  cmd_stderr : string;
  cmd_err : option error
}.

(** [exec.Cmd.Output]: the command's standard output, and the error.  The
    standard error is not part of what it returns. *)
Definition Cmd_Output (r : CmdResult) : string * option error :=
  (cmd_stdout r, cmd_err r).

(** ** [net/netip]: IPv4 text and prefix lengths *)

(** [netip.parseIPv4]: four decimal fields of at most 255, no leading zero,
    with dots between them.  [fields] are the octets read so far, [first]
    says that no character was read yet and [prevDot] that the last one was a
    dot. *)
Fixpoint parseIPv4_from (fields : list byte) (val : N) (digLen : nat)
  (first prevDot : bool) (s : string) : option (list byte) :=
  match s with
  | EmptyString =>
      if (length fields <? 3)%nat then None else Some (fields ++ [val])
  | String c rest =>
      let n := N_of_ascii c in
      if in_range 48 57 n then
        if (digLen =? 1)%nat && (val =? 0) then None
        else
          let val := val * 10 + (n - 48) in
          if 255 <? val then None
          else parseIPv4_from fields val (S digLen) false false rest
      else if n =? 46 then
        if first || bool_decide (rest = EmptyString) || prevDot then None
        else if (length fields =? 3)%nat then None
        else parseIPv4_from (fields ++ [val]) 0 0 false true rest
      else None
  end.

Definition netip_parseIPv4 (s : string) : option (list byte) :=
  parseIPv4_from [] 0 0 true false s.

(** [dtoi]: the decimal number at the head of [s], how many characters it
    takes, and whether there was one below [0xFFFFFF]. *)
Fixpoint dtoi_from (n : N) (i : nat) (s : string) : N * nat * bool :=
  match s with
  | EmptyString => (n, i, negb (i =? 0)%nat)
  | String c rest =>
      let d := N_of_ascii c in
      if in_range 48 57 d then
        let n := n * 10 + (d - 48) in
        if 16777215 <=? n then (16777215, i, false)
        else dtoi_from n (S i) rest
      else (if (i =? 0)%nat then 0 else n, i, negb (i =? 0)%nat)
  end.

Definition dtoi (s : string) : N * nat * bool := dtoi_from 0 0 s.

(** The text before the first ['/'] and the text after it. *)
Fixpoint cut_slash (s : string) : option (string * string) :=
  match s with
  | EmptyString => None
  | String c rest =>
      if N_of_ascii c =? 47 then Some (EmptyString, rest)
      else
        match cut_slash rest with
        | Some (a, m) => Some (String c a, m)
        | None => None
        end
  end.

(** The 16-byte form of an address ([netip.Addr.As16]). *)
Definition As16 (b : list byte) : list byte :=
  if (length b =? IPv4len)%nat then v4InV6Prefix ++ b else b.

(** ** Re-encoding an address *)

(** Modelled from the spec: the re-encoding of a decoded address
    ("byte-swap, hex-encode"), which the source does not contain.  The spec
    does not say which letter case the encoder writes: [upper] chooses
    between the kernel's ([0101A8C0]) and that of Go's
    [hex.EncodeToString] ([0101a8c0]). *)
Definition hex_digit_of (upper : bool) (d : N) : ascii :=
  if d <? 10 then ascii_of_N (48 + d)
  else ascii_of_N ((if upper then 65 else 97) + (d - 10)).

Fixpoint hex_EncodeToString (upper : bool) (bs : list byte) : string :=
  match bs with
  | [] => EmptyString
  | b :: rest =>
      String (hex_digit_of upper (N.shiftr b 4))
        (String (hex_digit_of upper (N.land b 15)) (hex_EncodeToString upper rest))
  end.

Definition encodeIP (upper : bool) (ip : IP) : string :=
  hex_EncodeToString upper (rev (IP_bytes ip)).

(** A hexadecimal digit as the decoder accepts it, and one of a given letter
    case. *)
Definition is_hex_digit (c : ascii) : bool :=
  reverseHexTable c <=? 15.

Definition is_hex_digit_of (upper : bool) (c : ascii) : bool :=
  let n := N_of_ascii c in
  in_range 48 57 n || (if upper then in_range 65 70 n else in_range 97 102 n).

Fixpoint string_forallb (f : ascii -> bool) (s : string) : bool :=
  match s with
  | EmptyString => true
  | String c rest => f c && string_forallb f rest
  end.

(** A valid address field: eight hexadecimal digits. *)
Definition valid_field (s : string) : bool :=
  (String.length s =? 8)%nat && string_forallb is_hex_digit s.

(** ** Vocabulary of the statements *)

(** A text without a newline: one line, or the unterminated end of a file. *)
Definition no_LF (s : string) : bool :=
  string_forallb (fun c => negb (Ascii.eqb c LF)) s.

(** A text every line of which ends in a newline. *)
Definition terminated (s : string) : Prop :=
  s = EmptyString \/ exists p, s = p +:+ nl.

Fixpoint count_LF (s : string) : nat :=
  match s with
  | EmptyString => 0
  | String c rest => (if Ascii.eqb c LF then 1 else 0) + count_LF rest
  end.


(** A well-formed IPv4 address: four bytes, not [nil]. *)
Definition wf_IPv4 (ip : IP) : Prop :=
  exists a b c d,
    ip = Some [a; b; c; d] /\ a <= 255 /\ b <= 255 /\ c <= 255 /\ d <= 255.

Definition wf_Route (r : Route) : Prop :=
  wf_IPv4 (Destination r) /\ wf_IPv4 (Gateway r).

(** A default route of the interface [ifname]. *)
Definition default_for (ifname : string) (r : Route) : Prop :=
  Interface r = ifname /\ IP_Equal (Destination r) zero = true.

(** An interface that reports a hardware address. *)
Definition has_HardwareAddr (i : net_Interface) : bool :=
  match HardwareAddr i with
  | [] => false
  | _ :: _ => true
  end.

(** The records of one interface: one per address, none when its addresses
    cannot be listed. *)
Definition records_of (i : net_Interface) : list iface :=
  match Addrs i with
  | inl addrs => map (mkIface (Name i) (HardwareAddr_String (HardwareAddr i))) addrs
  | inr _ => []
  end.

Definition is_exec (e : Event) : bool :=
  match e with
  | exec_Command _ _ => true
  | _ => false
  end.

(** How many commands a run ran, and what it printed on standard output. *)
Definition execs (out : list Event) : nat := length (List.filter is_exec out).

Definition printed (out : list Event) : list string :=
  flat_map (fun e => match e with fmt_Println s => [s] | _ => [] end) out.

(** The routing table of the spec's example: a header, a default route of
    eth0 through 192.168.1.1, and a route of eth0 to 172.17.0.0. *)
Definition table1 : string :=
  "Iface Destination Gateway" +:+ nl +:+
  "eth0 00000000 0101A8C0" +:+ nl +:+
  "eth0 000011AC 0101A8C0" +:+ nl.

Definition header1 : string := "Iface Destination Gateway".

(** The abstract routines of [net/netip] for runs that hold IPv4 text only,
    and two tools: one that succeeds and one that fails, both writing to
    their standard output and to their standard error. *)
Definition no_IPv6 : string -> option (list byte) := fun _ => None.
Definition no_string6 : list byte -> string := fun _ => EmptyString.

Definition tool_ok : nat -> list string -> CmdResult :=
  fun _ _ => mkCmdResult "ARPING 10.0.0.1" "arping: warning" None.
Definition tool_failing : nat -> list string -> CmdResult :=
  fun _ _ => mkCmdResult "ARPING 10.0.0.1" "arping: fatal"
               (Some (os_error "exit status 2")).

Definition eth0_addr : iface := mkIface "eth0" "aa:bb:cc:dd:ee:ff" "10.0.0.2/24".
Definition lo_addr : iface := mkIface "lo" "00:00:00:00:00:00" "127.0.0.1/8".
Definition eth0_index : gmap string IP := {[ "eth0" := Some [10; 0; 0; 1] ]}.

Definition eth0_probe : list Event :=
  [log_Printf ("Executing: arping -U -c 1 -I %s -s %s %s" +:+ nl)
     [ArgString "eth0"; ArgString "10.0.0.2"; ArgString "10.0.0.1"];
   exec_Command "arping" ["-U"; "-c"; "1"; "-I"; "eth0"; "-s"; "10.0.0.2"; "10.0.0.1"]].

(** ** Vocabulary of further statements *)

(** The number a text of hexadecimal digits writes. *)
Fixpoint hex_value_from (acc : N) (s : string) : N :=
  match s with
  | EmptyString => acc
  | String c rest => hex_value_from (acc * 16 + reverseHexTable c) rest
  end.

Definition hex_value (s : string) : N := hex_value_from 0 s.

(** A text that is empty or ends in a newline, as a test. *)
Fixpoint ends_with_LF (s : string) : bool :=
  match s with
  | EmptyString => false
  | String c EmptyString => Ascii.eqb c LF
  | String _ rest => ends_with_LF rest
  end.

Definition terminatedb (s : string) : bool :=
  match s with
  | EmptyString => true
  | _ => ends_with_LF s
  end.

(** A route whose destination equals 0.0.0.0. *)
Definition is_default (r : Route) : bool := IP_Equal (Destination r) zero.

(** The log entry of an interface whose addresses cannot be listed. *)
Definition log_Addrs_error (err : error) : Event :=
  log_Print [ArgError (fmt_Errorf ("localAddresses: %v" +:+ nl) [ArgError err])].

(** What the enumerator logs for one interface. *)
Definition log_of (i : net_Interface) : list Event :=
  if has_HardwareAddr i then
    match Addrs i with
    | inl _ => []
    | inr err => [log_Addrs_error err]
    end
  else [].

(** The argument lists of the commands of a run, in order. *)
Definition commands (out : list Event) : list (list string) :=
  flat_map (fun e => match e with exec_Command _ a => [a] | _ => [] end) out.

Definition log_command_error (e : error) : Event :=
  log_Printf "Error running command: %s" [ArgError e].

Definition is_command_error (ev : Event) : bool :=
  match ev with
  | log_Printf format [ArgError _] => String.eqb format "Error running command: %s"
  | _ => false
  end.

(** A tool like [tool_ok] that writes something else to its standard
    error. *)
Definition tool_ok_quiet : nat -> list string -> CmdResult :=
  fun _ _ => mkCmdResult "ARPING 10.0.0.1" EmptyString None.

(** A second address of the interface of [eth0_addr]. *)
Definition eth0_addr2 : iface := mkIface "eth0" "aa:bb:cc:dd:ee:ff" "10.0.0.3/24".

(** ** [main] and what it calls in package [net] *)

Section Program.

(** Two routines of package [net/netip] stay abstract: the parser of IPv6
    text (the 16 bytes of the address when the text is accepted and has no
    zone) and the printer of a 16-byte address that is not IPv4-mapped. *)
Variable netip_parseIPv6 : string -> option (list byte).
Variable netip_string6 : list byte -> string.

(** The external tool: what the [n]-th run of the program's command with the
    given arguments leaves. *)
Variable arping : nat -> list string -> CmdResult.

(** [net.IP.String]. *)
Definition IP_String (ip : IP) : string :=
  let a := IP_bytes ip in
  if (length a =? 0)%nat then "<nil>"
  else if negb (length a =? IPv4len)%nat && negb (length a =? IPv6len)%nat
  then "?" +:+ hexString a
  else
    match IP_To4 ip with
    | Some [b0; b1; b2; b3] => dotted_quad b0 b1 b2 b3
    | _ => netip_string6 a
    end.

(** [netip.ParseAddr] with an empty zone: the first of ['.'], [':'] and ['%']
    in the text chooses the parser; the result is the address and its length
    in bits. *)
Fixpoint ParseAddr_from (whole s : string) : option (list byte * N) :=
  match s with
  | EmptyString => None
  | String c rest =>
      let n := N_of_ascii c in
      if n =? 46 then
        match netip_parseIPv4 whole with
        | Some b => Some (b, 32)
        | None => None
        end
      else if n =? 58 then
        match netip_parseIPv6 whole with
        | Some b => Some (b, 128)
        | None => None
        end
      else if n =? 37 then None
      else ParseAddr_from whole rest
  end.

Definition netip_ParseAddr (s : string) : option (list byte * N) :=
  ParseAddr_from s s.

(** [net.ParseCIDR], its first result: the address in 16-byte form, or [nil]
    when the text is not an address, a slash and a prefix length within the
    address's bits. *)
Definition ParseCIDR (s : string) : IP :=
  match cut_slash s with
  | None => None
  | Some (addr, mask) =>
      match netip_ParseAddr addr with
      | None => None
      | Some (b, bitlen) =>
          let '(n, i, ok) := dtoi mask in
          if negb ok || negb (i =? String.length mask)%nat || (bitlen <? n)
          then None
          else Some (As16 b)
      end
  end.

Definition arping_args (i : iface) (ip gw : IP) : list string :=
  ["-U"; "-c"; "1"; "-I"; name i; "-s"; IP_String ip; IP_String gw].

(** The three entries the loop of [main] logs. *)
Definition log_skip_non_IPv4 (i : iface) : Event :=
  log_Printf ("Skipping non-IPv4 address: %s" +:+ nl) [ArgString (addr i)].

Definition log_skip_no_gateway (i : iface) : Event :=
  log_Printf ("Skipping IP because couldn't find default gateway for its interface: %s (iface: %s)" +:+ nl)
             [ArgString (addr i); ArgString (name i)].

Definition log_executing (i : iface) (ip gw : IP) : Event :=
  log_Printf ("Executing: arping -U -c 1 -I %s -s %s %s" +:+ nl)
             [ArgString (name i); ArgString (IP_String ip); ArgString (IP_String gw)].

(** The loop of [main] over the local addresses.  [n] counts the commands run
    so far.  The result is what was written and run, and the exit status of
    the process. *)
Fixpoint main_loop (defaultRoutes : gmap string IP) (n : nat) (ifaces : list iface)
  : list Event * Z :=
  match ifaces with
  | [] => ([], 0%Z)
  | i :: rest =>
      let ip := ParseCIDR (addr i) in
      match IP_To4 ip with
      | None =>
          let '(out, code) := main_loop defaultRoutes n rest in
          (log_skip_non_IPv4 i :: out, code)
      | Some _ =>
          match map_index defaultRoutes (name i) with
          | None =>
              let '(out, code) := main_loop defaultRoutes n rest in
              (log_skip_no_gateway i :: out, code)
          | Some g =>
              let gw : IP := Some g in
              let args := arping_args i ip gw in
              let '(output, err) := Cmd_Output (arping n args) in
              let run := [log_executing i ip gw; exec_Command "arping" args] in
              match err with
              | Some e =>
                  (run ++ [log_Printf "Error running command: %s" [ArgError e]], 1%Z)
              | None =>
                  let '(out, code) := main_loop defaultRoutes (S n) rest in
                  (run ++ fmt_Println output :: out, code)
              end
          end
      end
  end.

(** [main], given the routing table file and the system's interfaces. *)
Definition main (file : string + error) (interfaces : list net_Interface + error)
  : list Event * Z :=
  match getDefaultRoutes file with
  | (out, Exit code) => (out, code)
  | (out, Done defaultRoutes) =>
      let '(log, (ifaces, err)) := localAddresses interfaces in
      match err with
      | Some e =>
          (out ++ log ++ [log_Printf "Error getting interfaces: %s" [ArgError e]], 1%Z)
      | None =>
          let '(run, code) := main_loop defaultRoutes 0 ifaces in
          (out ++ log ++ run, code)
      end
  end.

(** The arguments of the probe of a local address, when it has one: its
    address parses as IPv4 and its interface has a gateway in the index. *)
Definition probe_of (idx : gmap string IP) (i : iface) : option (list string) :=
  match IP_To4 (ParseCIDR (addr i)), map_index idx (name i) with
  | Some _, Some g => Some (arping_args i (ParseCIDR (addr i)) (Some g))
  | _, _ => None
  end.

(** * Properties *)

(** ** Strings and lines *)

Lemma app_cons_s c (a b : string) : String c a +:+ b = String c (a +:+ b).
Proof. reflexivity. Qed.

Lemma app_nil_s (b : string) : EmptyString +:+ b = b.
Proof. reflexivity. Qed.

Ltac sapp := repeat (progress (rewrite ?app_cons_s, ?app_nil_s in *)).

Lemma app_assoc_s (a b c : string) : (a +:+ b) +:+ c = a +:+ (b +:+ c).
Proof. induction a; sapp; congruence. Qed.

Lemma app_empty_r_s (a : string) : a +:+ EmptyString = a.
Proof. induction a; sapp; congruence. Qed.

Lemma length_app_s (a b : string) :
  String.length (a +:+ b) = (String.length a + String.length b)%nat.
Proof. induction a; sapp; simpl; congruence. Qed.

Lemma count_LF_app a b : count_LF (a +:+ b) = (count_LF a + count_LF b)%nat.
Proof. induction a as [|c a IH]; sapp; simpl; [reflexivity|]. rewrite IH. lia. Qed.

Lemma count_LF_line l r :
  no_LF l = true -> count_LF (l +:+ nl +:+ r) = S (count_LF r).
Proof.
  unfold no_LF. induction l as [|c l IH]; sapp; simpl; intros H.
  - reflexivity.
  - apply andb_prop in H as [Hc Hl]. destruct (Ascii.eqb c LF); [discriminate|].
    simpl. apply IH, Hl.
Qed.

Lemma terminated_nl pre : terminated (pre +:+ nl).
Proof. right. exists pre. reflexivity. Qed.

(** [ReadString] returns a line with its newline, and the unterminated end
    of the content with [io.EOF]. *)
Lemma ReadString_from_line l r :
  no_LF l = true -> ReadString_from LF (l +:+ nl +:+ r) = (l +:+ nl, None, r).
Proof.
  unfold no_LF. induction l as [|c l IH]; sapp; simpl; intros H.
  - reflexivity.
  - apply andb_prop in H as [Hc Hl].
    destruct (Ascii.eqb c LF); [discriminate|].
    rewrite (IH Hl). reflexivity.
Qed.

Lemma ReadString_from_last s :
  no_LF s = true -> ReadString_from LF s = (s, Some io_EOF, EmptyString).
Proof.
  unfold no_LF. induction s as [|c s IH]; simpl; intros H.
  - reflexivity.
  - apply andb_prop in H as [Hc Hl].
    destruct (Ascii.eqb c LF); [discriminate|].
    rewrite (IH Hl). reflexivity.
Qed.

(** A terminated text that is not empty is a first line, its newline, and a
    terminated rest. *)
Lemma terminated_split s :
  terminated s -> s <> EmptyString ->
  exists l r, no_LF l = true /\ s = l +:+ nl +:+ r /\ terminated r.
Proof.
  induction s as [|c s IH]; intros Ht Hne; [congruence|].
  assert (Hs : terminated s \/ (s = EmptyString /\ c = LF)).
  { destruct Ht as [Ht|[p Hp]]; [discriminate|].
    destruct p as [|c' p]; sapp.
    - injection Hp as -> ->. right. split; reflexivity.
    - injection Hp as -> ->. left. right. exists p. reflexivity. }
  destruct (Ascii.eqb c LF) eqn:Ec.
  - apply Ascii.eqb_eq in Ec. subst c.
    exists EmptyString, s. split; [reflexivity|]. split; [reflexivity|].
    destruct Hs as [Hs|[-> _]]; [exact Hs|left; reflexivity].
  - destruct Hs as [Hs|[_ ->]]; [|rewrite Ascii.eqb_refl in Ec; discriminate].
    destruct s as [|c' s'].
    { destruct Hs as [Hs|[p Hp]]; [|destruct p; discriminate].
      exfalso. destruct Ht as [Ht|[p Hp]]; [discriminate|].
      destruct p as [|? p]; sapp.
      - injection Hp as ->. rewrite Ascii.eqb_refl in Ec. discriminate.
      - injection Hp as _ Hp. destruct p; discriminate. }
    destruct (IH Hs) as (l & r & Hl & E & Hr); [discriminate|].
    exists (String c l), r. split.
    + unfold no_LF in *. simpl. rewrite Ec, Hl. reflexivity.
    + split; [sapp; rewrite E; reflexivity|exact Hr].
Qed.

(** ** The loop of [GetRoutes] *)

(** The body returns only with an error and no routes, and goes on with the
    next line number. *)
Lemma GetRoutes_body_Return line lineNum routes r :
  GetRoutes_body line lineNum routes = Return r -> exists e, r = ([], Some e).
Proof.
  unfold GetRoutes_body.
  destruct (length (strings_Fields line) <? 3)%nat; [intros [= <-]; eauto|].
  destruct (S lineNum =? 1)%nat; [discriminate|].
  destruct (parseIP _) as [ip [e|]]; [intros [= <-]; eauto|].
  destruct (parseIP _) as [ip' [e|]]; [intros [= <-]; eauto|discriminate].
Qed.

Lemma GetRoutes_body_lineNum line lineNum routes lineNum' routes' :
  GetRoutes_body line lineNum routes = Next (lineNum', routes') -> lineNum' = S lineNum.
Proof.
  unfold GetRoutes_body.
  destruct (length (strings_Fields line) <? 3)%nat; [discriminate|].
  destruct (S lineNum =? 1)%nat; [intros [= <- _]; reflexivity|].
  destruct (parseIP _) as [ip [e|]]; [discriminate|].
  destruct (parseIP _) as [ip' [e|]]; [discriminate|intros [= <- _]; reflexivity].
Qed.

Lemma GetRoutes_loop_empty lineNum routes :
  GetRoutes_loop (FileReader EmptyString) lineNum routes = (routes, None).
Proof. rewrite GetRoutes_loop_eq. reflexivity. Qed.

Lemma GetRoutes_loop_last s lineNum routes :
  no_LF s = true -> GetRoutes_loop (FileReader s) lineNum routes = (routes, None).
Proof.
  intros H. rewrite GetRoutes_loop_eq. simpl. rewrite (ReadString_from_last _ H).
  reflexivity.
Qed.

Lemma GetRoutes_loop_line l r lineNum routes :
  no_LF l = true ->
  GetRoutes_loop (FileReader (l +:+ nl +:+ r)) lineNum routes =
  match GetRoutes_body (l +:+ nl) lineNum routes with
  | Return res => res
  | Next (lineNum', routes') => GetRoutes_loop (FileReader r) lineNum' routes'
  end.
Proof.
  intros H. rewrite GetRoutes_loop_eq. simpl. rewrite (ReadString_from_line _ _ H).
  reflexivity.
Qed.

(** Reading a terminated text and then more: the error of the first part, or
    the rest read from where the first part ended. *)
Lemma GetRoutes_loop_app pre :
  terminated pre ->
  forall r lineNum routes,
  GetRoutes_loop (FileReader (pre +:+ r)) lineNum routes =
  match GetRoutes_loop (FileReader pre) lineNum routes with
  | (routes', None) => GetRoutes_loop (FileReader r) (lineNum + count_LF pre) routes'
  | (x, Some e) => (x, Some e)
  end.
Proof.
  remember (String.length pre) as n eqn:Hn.
  revert pre Hn. induction n as [n IH] using lt_wf_ind.
  intros pre Hn Ht r lineNum routes.
  destruct pre as [|c pre'] eqn:Epre.
  - rewrite GetRoutes_loop_empty. simpl. rewrite Nat.add_0_r. reflexivity.
  - rewrite <- Epre in *.
    destruct (terminated_split pre Ht) as (l & rest & Hl & E & Hrest);
      [subst pre; discriminate|].
    rewrite E, !app_assoc_s.
    rewrite !GetRoutes_loop_line by exact Hl.
    destruct (GetRoutes_body (l +:+ nl) lineNum routes) as [res|[ln rs]] eqn:Eb.
    + destruct (GetRoutes_body_Return _ _ _ _ Eb) as [e ->]. reflexivity.
    + apply GetRoutes_body_lineNum in Eb as ->.
      rewrite (IH (String.length rest)) with (pre := rest);
        [| |reflexivity|exact Hrest].
      * destruct (GetRoutes_loop (FileReader rest) (S lineNum) rs) as [x [e|]];
          [reflexivity|].
        f_equal. rewrite (count_LF_line _ _ Hl). lia.
      * subst n. rewrite E, !length_app_s. simpl. lia.
Qed.

(** All or nothing: with an error, the loop returns no routes. *)
Lemma GetRoutes_loop_error scanner :
  forall lineNum routes e,
  snd (GetRoutes_loop scanner lineNum routes) = Some e ->
  fst (GetRoutes_loop scanner lineNum routes) = [].
Proof.
  remember (Reader_unread scanner) as n eqn:Hn.
  revert scanner Hn. induction n as [n IH] using lt_wf_ind.
  intros scanner Hn lineNum routes e.
  rewrite GetRoutes_loop_eq.
  destruct (ReadString LF scanner) as [[line err] scanner'] eqn:Er.
  destruct (is_EOF err); [discriminate|].
  destruct (GetRoutes_body line lineNum routes) as [res|[ln rs]] eqn:Eb.
  - destruct (GetRoutes_body_Return _ _ _ _ Eb) as [e' ->]. reflexivity.
  - apply (IH (Reader_unread scanner')); [|reflexivity].
    apply ReadString_unread in Er.
    apply GetRoutes_body_Next, String_length_pos in Eb. lia.
Qed.

Lemma GetRoutes_error_no_routes (file : string + error) (e : error) :
  snd (snd (GetRoutes file)) = Some e -> fst (snd (GetRoutes file)) = [].
Proof.
  destruct file as [content|err]; simpl; apply GetRoutes_loop_error.
Qed.


Lemma count_LF_nl_pos pre : (0 + count_LF (pre +:+ nl))%nat <> 0%nat.
Proof. rewrite count_LF_app. simpl. lia. Qed.


(** C9.  A last line that no newline ends is dropped by the read: the result
    is that of the text before it, routes and error alike, whatever the line
    holds; a text without any newline reads as no routes and no error. *)
Theorem GetRoutes_unterminated_last_line (pre last : string) :
  no_LF last = true ->
  GetRoutes (inl (pre +:+ nl +:+ last)) = GetRoutes (inl (pre +:+ nl))
  /\ GetRoutes (inl last) = ([], ([], None)).
Proof.
  intros Hlast. unfold GetRoutes. split.
  - f_equal. rewrite <- app_assoc_s.
    rewrite (GetRoutes_loop_app _ (terminated_nl pre)).
    destruct (GetRoutes_loop (FileReader (pre +:+ nl)) 0 []) as [rs [e|]];
      [reflexivity|].
    apply GetRoutes_loop_last, Hlast.
  - f_equal. apply GetRoutes_loop_last, Hlast.
Qed.

(** C4, amended.  A header line and no data line: when the header has at
    least three fields the read returns no routes and no error; a header of
    fewer fields fails the field-count check like any other line; a header
    that no newline ends (an empty file too) reads as no routes and no
    error. *)
Theorem GetRoutes_header_only (header : string) :
  no_LF header = true ->
  (3 <= length (strings_Fields (header +:+ nl)) ->
   GetRoutes (inl (header +:+ nl)) = ([], ([], None)))%nat
  /\ (length (strings_Fields (header +:+ nl)) < 3 ->
      GetRoutes (inl (header +:+ nl))
      = ([], ([], Some (ErrWrongFields (strings_Fields (header +:+ nl))
                                       (header +:+ nl)))))%nat
  /\ GetRoutes (inl header) = ([], ([], None)).
Proof.
  intros Hh. unfold GetRoutes.
  assert (E : forall ln rs, GetRoutes_loop (FileReader (header +:+ nl)) ln rs
              = match GetRoutes_body (header +:+ nl) ln rs with
                | Return res => res
                | Next (ln', rs') => (rs', None)
                end).
  { intros ln rs.
    pose proof (GetRoutes_loop_line header EmptyString ln rs Hh) as H.
    change (nl +:+ EmptyString) with nl in H. rewrite H.
    destruct (GetRoutes_body _ _ _) as [res|[ln' rs']]; [reflexivity|].
    apply GetRoutes_loop_empty. }
  split; [|split].
  - intros Hf. f_equal. rewrite E. unfold GetRoutes_body.
    destruct (Nat.ltb_spec (length (strings_Fields (header +:+ nl))) 3); [lia|].
    reflexivity.
  - intros Hf. f_equal. rewrite E. unfold GetRoutes_body.
    destruct (Nat.ltb_spec (length (strings_Fields (header +:+ nl))) 3); [|lia].
    reflexivity.
  - f_equal. apply GetRoutes_loop_last, Hh.
Qed.


(** ** Hexadecimal digits *)

Lemma nibble_cases (a : N) : a <= 15 ->
  a = 0 \/ a = 1 \/ a = 2 \/ a = 3 \/ a = 4 \/ a = 5 \/ a = 6 \/ a = 7 \/
  a = 8 \/ a = 9 \/ a = 10 \/ a = 11 \/ a = 12 \/ a = 13 \/ a = 14 \/ a = 15.
Proof. lia. Qed.

(** Two nibbles make a byte, and the byte gives them back. *)
Lemma nibbles_split (a b : N) : a <= 15 -> b <= 15 ->
  N.shiftr (N.lor (N.shiftl a 4) b) 4 = a /\ N.land (N.lor (N.shiftl a 4) b) 15 = b.
Proof.
  intros Ha Hb.
  apply nibble_cases in Ha. apply nibble_cases in Hb.
  repeat (destruct Ha as [->|Ha]); try subst a;
  repeat (destruct Hb as [->|Hb]); try subst b; split; reflexivity.
Qed.

Lemma nibbles_byte (a b : N) : a <= 15 -> b <= 15 -> N.lor (N.shiftl a 4) b <= 255.
Proof.
  intros Ha Hb.
  apply nibble_cases in Ha. apply nibble_cases in Hb.
  repeat (destruct Ha as [->|Ha]); try subst a;
  repeat (destruct Hb as [->|Hb]); try subst b; vm_compute; discriminate.
Qed.

Lemma hex_digit_of_value upper c :
  is_hex_digit_of upper c = true ->
  reverseHexTable c <= 15 /\ hex_digit_of upper (reverseHexTable c) = c.
Proof.
  destruct upper;
  destruct c as [[] [] [] [] [] [] [] []]; vm_compute; intros H;
    try discriminate H; split; try reflexivity; intros K; discriminate K.
Qed.

Lemma hex_Decode_pair p q rest :
  reverseHexTable p <= 15 -> reverseHexTable q <= 15 ->
  hex_Decode (String p (String q rest)) =
  (N.lor (N.shiftl (reverseHexTable p) 4) (reverseHexTable q) :: fst (hex_Decode rest),
   snd (hex_Decode rest)).
Proof.
  intros Hp Hq. cbn [hex_Decode].
  destruct (N.ltb_spec 15 (reverseHexTable p)); [lia|].
  destruct (N.ltb_spec 15 (reverseHexTable q)); [lia|].
  destruct (hex_Decode rest). reflexivity.
Qed.

Lemma hex_Encode_pair upper p q bs :
  is_hex_digit_of upper p = true -> is_hex_digit_of upper q = true ->
  hex_EncodeToString upper
    (N.lor (N.shiftl (reverseHexTable p) 4) (reverseHexTable q) :: bs)
  = String p (String q (hex_EncodeToString upper bs)).
Proof.
  intros Hp Hq.
  destruct (hex_digit_of_value _ _ Hp) as [Lp Ep].
  destruct (hex_digit_of_value _ _ Hq) as [Lq Eq].
  cbn [hex_EncodeToString].
  destruct (nibbles_split _ _ Lp Lq) as [-> ->].
  rewrite Ep, Eq. reflexivity.
Qed.

Lemma string_pair_ind (P : string -> Prop) :
  P EmptyString ->
  (forall c, P (String c EmptyString)) ->
  (forall p q r, P r -> P (String p (String q r))) ->
  forall s, P s.
Proof.
  intros H0 H1 H2.
  fix IH 1. intros [|p [|q r]]; [exact H0|apply H1|apply H2, IH].
Qed.

Lemma hex_Decode_bytes s : Forall (fun b => b <= 255) (fst (hex_Decode s)).
Proof.
  induction s as [|c|p q r IH] using string_pair_ind.
  - constructor.
  - simpl. destruct (15 <? reverseHexTable c); constructor.
  - cbn [hex_Decode].
    destruct (N.ltb_spec 15 (reverseHexTable p)); [constructor|].
    destruct (N.ltb_spec 15 (reverseHexTable q)); [constructor|].
    destruct (hex_Decode r) as [bs err]. simpl in *.
    constructor; [apply nibbles_byte; assumption|exact IH].
Qed.

(** What [parseIP] returns without an error is four bytes. *)
Lemma parseIP_wf s ip : parseIP s = (ip, None) -> wf_IPv4 ip.
Proof.
  unfold parseIP, hex_DecodeString. pose proof (hex_Decode_bytes s) as Hb.
  destruct (hex_Decode s) as [bs [e|]]; [discriminate|]. simpl in Hb.
  destruct bs as [|b0 [|b1 [|b2 [|b3 [|b4 bs]]]]]; try discriminate.
  intros [= <-].
  apply Forall_cons in Hb as [H0 Hb]. apply Forall_cons in Hb as [H1 Hb].
  apply Forall_cons in Hb as [H2 Hb]. apply Forall_cons in Hb as [H3 _].
  exists b3, b2, b1, b0. auto.
Qed.

(** C3, amended.  A field of eight hexadecimal digits whose letters are all
    in the letter case the encoder writes decodes to a 4-byte address, and
    re-encoding that address (bytes reversed, then hexadecimal) gives the
    field back. *)
Theorem parseIP_encodeIP_roundtrip (upper : bool) (s : string) :
  String.length s = 8%nat ->
  string_forallb (is_hex_digit_of upper) s = true ->
  exists ip, parseIP s = (ip, None) /\ IP_len ip = 4%nat /\ encodeIP upper ip = s.
Proof.
  intros Hlen Hdig.
  do 8 (destruct s as [|? s]; [discriminate Hlen|]).
  destruct s; [|discriminate Hlen]. clear Hlen.
  cbn [string_forallb] in Hdig.
  repeat (apply andb_prop in Hdig; destruct Hdig as [? Hdig]).
  clear Hdig.
  repeat match goal with
         | H : is_hex_digit_of upper ?c = true |- _ =>
             pose proof (proj1 (hex_digit_of_value _ _ H)); revert H
         end.
  intros.
  unfold parseIP, hex_DecodeString.
  rewrite !hex_Decode_pair by assumption. cbn [hex_Decode fst snd].
  eexists. split; [reflexivity|]. split; [reflexivity|].
  unfold encodeIP. cbn [IP_bytes default from_option id rev app].
  rewrite !hex_Encode_pair by assumption. reflexivity.
Qed.

(** The decoder reads both letter cases as the same digits, so no encoder
    whatever gives every valid field back. *)
Lemma no_encoder_roundtrips :
  ~ exists enc : IP -> string,
      forall s, valid_field s = true -> enc (fst (parseIP s)) = s.
Proof.
  intros [enc H].
  pose proof (H "0101A8C0" eq_refl) as H1.
  pose proof (H "0101a8c0" eq_refl) as H2.
  change (fst (parseIP "0101a8c0")) with (fst (parseIP "0101A8C0")) in H2.
  rewrite H1 in H2. discriminate H2.
Qed.

(** ** Routes read are IPv4 *)

Lemma GetRoutes_body_wf line lineNum routes lineNum' routes' :
  Forall wf_Route routes ->
  GetRoutes_body line lineNum routes = Next (lineNum', routes') ->
  Forall wf_Route routes'.
Proof.
  intros Hwf. unfold GetRoutes_body.
  destruct (length (strings_Fields line) <? 3)%nat; [discriminate|].
  destruct (S lineNum =? 1)%nat; [intros [= _ <-]; exact Hwf|].
  destruct (parseIP (nth 1 _ _)) as [ip [e|]] eqn:E1; [discriminate|].
  destruct (parseIP (nth 2 _ _)) as [ip' [e|]] eqn:E2; [discriminate|].
  intros [= _ <-]. apply Forall_app. split; [exact Hwf|].
  constructor; [|constructor]. split; simpl; eapply parseIP_wf; eassumption.
Qed.

Lemma GetRoutes_loop_wf scanner :
  forall lineNum routes,
  Forall wf_Route routes ->
  Forall wf_Route (fst (GetRoutes_loop scanner lineNum routes)).
Proof.
  remember (Reader_unread scanner) as n eqn:Hn.
  revert scanner Hn. induction n as [n IH] using lt_wf_ind.
  intros scanner Hn lineNum routes Hwf.
  rewrite GetRoutes_loop_eq.
  destruct (ReadString LF scanner) as [[line err] scanner'] eqn:Er.
  destruct (is_EOF err); [exact Hwf|].
  destruct (GetRoutes_body line lineNum routes) as [res|[ln rs]] eqn:Eb.
  - destruct (GetRoutes_body_Return _ _ _ _ Eb) as [e ->]. constructor.
  - apply (IH (Reader_unread scanner')); [|reflexivity|].
    + apply ReadString_unread in Er.
      apply GetRoutes_body_Next, String_length_pos in Eb. lia.
    + eapply GetRoutes_body_wf; eassumption.
Qed.

Lemma getDefaultRoutes_loop_wf routes :
  forall m : gmap string IP,
  Forall wf_Route routes ->
  map_Forall (fun _ gw => wf_IPv4 gw) m ->
  map_Forall (fun _ gw => wf_IPv4 gw) (getDefaultRoutes_loop routes m).
Proof.
  induction routes as [|r rest IH]; intros m Hr Hm; [exact Hm|].
  apply Forall_cons in Hr as [[_ Hg] Hrest]. simpl.
  destruct (IP_Equal (Destination r) zero); apply IH; try assumption.
  apply map_Forall_insert_2; assumption.
Qed.

Lemma getDefaultRoutes_wf file out idx :
  getDefaultRoutes file = (out, Done idx) ->
  map_Forall (fun _ gw => wf_IPv4 gw) idx.
Proof.
  unfold getDefaultRoutes.
  destruct (GetRoutes file) as [log [routes err]] eqn:E.
  destruct err as [e|]; [discriminate|]. intros [= _ <-].
  apply getDefaultRoutes_loop_wf; [|apply map_Forall_empty].
  assert (routes = fst (snd (GetRoutes file))) as -> by (rewrite E; reflexivity).
  destruct file as [content|err]; apply GetRoutes_loop_wf; constructor.
Qed.

(** ** Dotted quads *)

Lemma digit_cases (a : N) : a <= 255 ->
  exists h t u, a = 100 * h + 10 * t + u /\ h <= 2 /\ t <= 9 /\ u <= 9.
Proof.
  intros H. exists (a / 100), ((a / 10) mod 10), (a mod 10).
  pose proof (N.div_mod a 10 ltac:(lia)).
  pose proof (N.div_mod (a / 10) 10 ltac:(lia)).
  pose proof (N.mod_upper_bound a 10 ltac:(lia)).
  pose proof (N.mod_upper_bound (a / 10) 10 ltac:(lia)).
  assert (a / 100 = a / 10 / 10) by (rewrite N.Div0.div_div; reflexivity).
  assert (a / 10 / 10 <= 2).
  { apply N.lt_succ_r. apply N.Div0.div_lt_upper_bound.
    apply N.Div0.div_lt_upper_bound. lia. }
  lia.
Qed.

Lemma N_of_ascii_digit u : u <= 9 -> N_of_ascii (digit u) = 48 + u.
Proof.
  intros H. unfold digit. apply N_ascii_embedding. lia.
Qed.

(** The IPv4 parser reads a digit into the octet it is collecting. *)
Lemma parseIPv4_digit fields v dl first prevDot u rest :
  u <= 9 -> ~ (dl = 1%nat /\ v = 0) -> v * 10 + u <= 255 ->
  parseIPv4_from fields v dl first prevDot (String (digit u) rest)
  = parseIPv4_from fields (v * 10 + u) (S dl) false false rest.
Proof.
  intros Hu Hz Hv. cbn [parseIPv4_from]. rewrite (N_of_ascii_digit u Hu).
  unfold in_range.
  destruct (N.leb_spec 48 (48 + u)); [|lia].
  destruct (N.leb_spec (48 + u) 57); [|lia]. cbn [andb].
  replace (48 + u - 48) with u by lia.
  destruct (N.ltb_spec 255 (v * 10 + u)); [lia|].
  destruct (Nat.eqb_spec dl 1), (N.eqb_spec v 0); cbn [andb]; try reflexivity.
  exfalso. apply Hz. split; assumption.
Qed.

(** It reads the decimal text of a byte as that byte. *)
Lemma parseIPv4_decimal (a : N) :
  a <= 255 ->
  exists dl, forall fields first prevDot rest,
  parseIPv4_from fields 0 0 first prevDot (appendDecimal a +:+ rest)
  = parseIPv4_from fields a dl false false rest.
Proof.
  intros Ha.
  destruct (digit_cases a Ha) as (h & t & u & E & Hh & Ht & Hu).
  assert (Eh : a / 100 = h).
  { symmetry. apply (N.div_unique a 100 h (10 * t + u)); lia. }
  assert (Et : (a / 10) mod 10 = t).
  { assert (a / 10 = 10 * h + t) as ->
      by (symmetry; apply (N.div_unique a 10 (10 * h + t) u); lia).
    symmetry. apply (N.mod_unique (10 * h + t) 10 h t); lia. }
  assert (Eu : a mod 10 = u).
  { symmetry. apply (N.mod_unique a 10 (10 * h + t) u); lia. }
  unfold appendDecimal. rewrite Eh, Et, Eu.
  destruct (N.leb_spec 100 a) as [H100|H100];
    destruct (N.leb_spec 10 a) as [H10|H10]; try lia.
  - exists 3%nat. intros. sapp.
    rewrite parseIPv4_digit by lia.
    rewrite parseIPv4_digit by lia.
    rewrite parseIPv4_digit by lia.
    f_equal. lia.
  - exists 2%nat. intros. sapp.
    rewrite parseIPv4_digit by lia.
    rewrite parseIPv4_digit by lia.
    f_equal. lia.
  - exists 1%nat. intros. sapp.
    rewrite parseIPv4_digit by lia.
    f_equal. lia.
Qed.

Lemma appendDecimal_cons a : exists c t, appendDecimal a = String c t.
Proof.
  unfold appendDecimal.
  destruct (100 <=? a); destruct (10 <=? a); sapp; eauto.
Qed.

Lemma parseIPv4_dot fields val digLen a rest :
  (length fields < 3)%nat ->
  parseIPv4_from fields val digLen false false ("." +:+ appendDecimal a +:+ rest)
  = parseIPv4_from (fields ++ [val]) 0 0 false true (appendDecimal a +:+ rest).
Proof.
  intros Hf. destruct (appendDecimal_cons a) as (c & t & ->). sapp.
  cbn [parseIPv4_from].
  change (in_range 48 57 (N_of_ascii ".")) with false.
  change (N_of_ascii "." =? 46) with true. cbv iota.
  rewrite bool_decide_eq_false_2 by discriminate.
  cbn [orb]. destruct (Nat.eqb_spec (length fields) 3); [lia|]. reflexivity.
Qed.

(** The dotted quad of four bytes is IPv4 text, of those four bytes. *)
Lemma parseIPv4_dotted_quad a b c d :
  a <= 255 -> b <= 255 -> c <= 255 -> d <= 255 ->
  netip_parseIPv4 (dotted_quad a b c d) = Some [a; b; c; d].
Proof.
  intros Ha Hb Hc Hd. unfold netip_parseIPv4, dotted_quad.
  destruct (parseIPv4_decimal a Ha) as [la Ea].
  destruct (parseIPv4_decimal b Hb) as [lb Eb].
  destruct (parseIPv4_decimal c Hc) as [lc Ec].
  destruct (parseIPv4_decimal d Hd) as [ld Ed].
  rewrite Ea.
  rewrite parseIPv4_dot by (simpl; lia).
  rewrite Eb.
  rewrite parseIPv4_dot by (simpl; lia).
  rewrite Ec.
  rewrite <- (app_empty_r_s (appendDecimal d)).
  rewrite parseIPv4_dot by (simpl; lia).
  rewrite Ed.
  reflexivity.
Qed.

(** C10.  In the index that [getDefaultRoutes] builds every gateway is four
    bytes (never [nil], never empty); so the gateway the dispatcher finds
    for an interface has four bytes, and the last argument of the command,
    its text, is the dotted quad of those bytes, which parses back to them
    as IPv4 text. *)
Theorem gateways_are_IPv4 (file : string + error) (out : list Event)
  (idx : gmap string IP) :
  getDefaultRoutes file = (out, Done idx) ->
  (forall ifname gw, idx !! ifname = Some gw ->
     exists a b c d, gw = Some [a; b; c; d]
       /\ a <= 255 /\ b <= 255 /\ c <= 255 /\ d <= 255)
  /\ (forall i ip g, map_index idx (name i) = Some g ->
        exists a b c d, a <= 255 /\ b <= 255 /\ c <= 255 /\ d <= 255
          /\ g = [a; b; c; d]
          /\ last (arping_args i ip (Some g)) = Some (dotted_quad a b c d)
          /\ netip_parseIPv4 (dotted_quad a b c d) = Some [a; b; c; d]).
Proof.
  intros Hidx. pose proof (getDefaultRoutes_wf _ _ _ Hidx) as Hwf. split.
  - intros ifname gw Hl. exact (Hwf _ _ Hl).
  - intros i ip g Hl. unfold map_index in Hl.
    destruct (idx !! name i) as [gw|] eqn:El; [|discriminate]. simpl in Hl. subst gw.
    destruct (Hwf _ _ El) as (a & b & c & d & [= ->] & Ha & Hb & Hc & Hd).
    exists a, b, c, d. repeat (split; [assumption || reflexivity|]).
    apply parseIPv4_dotted_quad; assumption.
Qed.

(** ** The default-gateway index *)

Lemma getDefaultRoutes_loop_lookup routes :
  forall (m : gmap string IP) ifname gw,
  getDefaultRoutes_loop routes m !! ifname = Some gw <->
  (exists pre r post, routes = pre ++ r :: post /\ default_for ifname r
     /\ Gateway r = gw /\ Forall (fun r' => ~ default_for ifname r') post)
  \/ (m !! ifname = Some gw /\ Forall (fun r' => ~ default_for ifname r') routes).
Proof.
  induction routes as [|r0 rest IH]; intros m ifname gw; simpl.
  - split.
    + intros H. right. split; [exact H|constructor].
    + intros [(pre & r & post & E & _)|[H _]]; [destruct pre; discriminate|exact H].
  - destruct (IP_Equal (Destination r0) zero) eqn:Ed; rewrite IH; split.
    + intros [(pre & r & post & -> & Hr)|[Hl Hf]].
      * left. exists (r0 :: pre), r, post. split; [reflexivity|exact Hr].
      * destruct (decide (Interface r0 = ifname)) as [En|En].
        -- subst ifname. rewrite lookup_insert_eq in Hl. injection Hl as <-.
           left. exists [], r0, rest. repeat split; assumption.
        -- rewrite lookup_insert_ne in Hl by exact En.
           right. split; [exact Hl|]. constructor; [|exact Hf].
           intros [E _]. contradiction.
    + intros [(pre & r & post & E & Hr & Hg & Hf)|[Hl Hf]].
      * destruct pre as [|p pre]; simpl in E; injection E as -> ->.
        -- right. destruct Hr as [<- _]. rewrite lookup_insert_eq, Hg.
           split; [reflexivity|exact Hf].
        -- left. exists pre, r, post. repeat split; assumption || apply Hr.
      * apply Forall_cons in Hf as [H0 Hf]. right. split; [|exact Hf].
        rewrite lookup_insert_ne; [exact Hl|].
        intros E. apply H0. split; assumption.
    + intros [(pre & r & post & -> & Hr)|[Hl Hf]].
      * left. exists (r0 :: pre), r, post. split; [reflexivity|exact Hr].
      * right. split; [exact Hl|]. constructor; [|exact Hf].
        intros [_ E]. congruence.
    + intros [(pre & r & post & E & Hr & Hg & Hf)|[Hl Hf]].
      * destruct pre as [|p pre]; simpl in E; injection E as -> ->.
        -- destruct Hr as [_ Hr]. congruence.
        -- left. exists pre, r, post. repeat split; assumption || apply Hr.
      * apply Forall_cons in Hf as [_ Hf]. right. split; assumption.
Qed.

(** C1.  The index built from a sequence of routes maps an interface name to
    a gateway exactly when the sequence has a route of that interface with
    destination 0.0.0.0 and that gateway, after which no other route of the
    interface has destination 0.0.0.0: routes to other destinations add
    nothing, and of several default routes of one interface the last is
    kept.  For the table of the two rows (eth0, 00000000, 0101A8C0) and
    (eth0, 000011AC, 0101A8C0) the index is eth0 -> 192.168.1.1 and nothing
    else; the second row alone gives the empty index. *)
Theorem default_gateway_index :
  (forall routes ifname gw,
     getDefaultRoutes_loop routes ∅ !! ifname = Some gw <->
     exists pre r post,
       routes = pre ++ r :: post
       /\ Interface r = ifname /\ IP_Equal (Destination r) zero = true
       /\ Gateway r = gw
       /\ Forall (fun r' => ~ (Interface r' = ifname
                               /\ IP_Equal (Destination r') zero = true)) post)
  /\ (forall content routes,
        GetRoutes (inl content) = ([], (routes, None)) ->
        getDefaultRoutes (inl content) = ([], Done (getDefaultRoutes_loop routes ∅)))
  /\ GetRoutes (inl table1)
     = ([], ([mkRoute "eth0" (Some [0; 0; 0; 0]) (Some [192; 168; 1; 1]);
              mkRoute "eth0" (Some [172; 17; 0; 0]) (Some [192; 168; 1; 1])], None))
  /\ getDefaultRoutes (inl table1) = ([], Done {[ "eth0" := Some [192; 168; 1; 1] ]})
  /\ IP_String (Some [192; 168; 1; 1]) = "192.168.1.1"
  /\ getDefaultRoutes_loop
       [mkRoute "eth0" (Some [172; 17; 0; 0]) (Some [192; 168; 1; 1])] ∅ = ∅.
Proof.
  split; [|split; [|split; [|split; [|split]]]].
  - intros routes ifname gw. rewrite getDefaultRoutes_loop_lookup. split.
    + intros [(pre & r & post & E & [Hi Hd] & Hg & Hf)|[Hl _]].
      * exists pre, r, post. auto.
      * rewrite lookup_empty in Hl. discriminate.
    + intros (pre & r & post & E & Hi & Hd & Hg & Hf).
      left. exists pre, r, post. repeat split; assumption.
  - intros content routes H. unfold getDefaultRoutes. rewrite H. reflexivity.
  - vm_compute. reflexivity.
  - vm_compute. reflexivity.
  - reflexivity.
  - reflexivity.
Qed.

(** ** The interface enumerator *)

Lemma HardwareAddr_String_empty a :
  String.eqb (HardwareAddr_String a) EmptyString
  = negb (match a with [] => false | _ :: _ => true end).
Proof. destruct a; reflexivity. Qed.

Lemma localAddresses_addrs_app i addrs acc :
  localAddresses_addrs i addrs acc
  = acc ++ map (mkIface (Name i) (HardwareAddr_String (HardwareAddr i))) addrs.
Proof.
  revert acc. induction addrs as [|a addrs IH]; intros acc; simpl.
  - rewrite app_nil_r. reflexivity.
  - rewrite IH, <- app_assoc. reflexivity.
Qed.

Lemma localAddresses_loop_records ifaces :
  forall acc,
  snd (localAddresses_loop ifaces acc)
  = acc ++ flat_map records_of (List.filter has_HardwareAddr ifaces).
Proof.
  induction ifaces as [|i rest IH]; intros acc; simpl.
  - rewrite app_nil_r. reflexivity.
  - rewrite HardwareAddr_String_empty. unfold has_HardwareAddr at 1.
    destruct (HardwareAddr i) as [|b bs] eqn:Eh; simpl; [apply IH|].
    unfold records_of at 1. rewrite Eh.
    destruct (Addrs i) as [addrs|err].
    + rewrite IH, localAddresses_addrs_app, Eh, <- app_assoc. reflexivity.
    + specialize (IH acc). destruct (localAddresses_loop rest acc) as [log l].
      simpl in *. exact IH.
Qed.

(** C7.  Given the system's interfaces, the enumerator returns, without an
    error, the records of the interfaces that have a hardware address, in
    the order of the interfaces and, within one, of its addresses: one
    record (name, hardware address as text, address) per address.  For eth0
    with a hardware address and the address 10.0.0.2/24, and lo without a
    hardware address, the result is the one record of eth0. *)
Theorem localAddresses_records :
  (forall ifaces : list net_Interface,
     snd (localAddresses (inl ifaces))
     = (flat_map records_of (List.filter has_HardwareAddr ifaces), None))
  /\ localAddresses
       (inl [mkInterface "eth0" [170; 187; 204; 221; 238; 255] (inl ["10.0.0.2/24"]);
             mkInterface "lo" [] (inl ["127.0.0.1/8"; "::1/128"])])
     = ([], ([mkIface "eth0" "aa:bb:cc:dd:ee:ff" "10.0.0.2/24"], None)).
Proof.
  split; [|reflexivity].
  intros ifaces. unfold localAddresses.
  pose proof (localAddresses_loop_records ifaces []) as H.
  destruct (localAddresses_loop ifaces []) as [log l]. simpl in *.
  rewrite H. reflexivity.
Qed.

(** ** The probe dispatcher *)

(** One pass of the loop of [main], case by case. *)
Lemma main_loop_non_IPv4 idx n i rest :
  IP_To4 (ParseCIDR (addr i)) = None ->
  main_loop idx n (i :: rest)
  = (log_skip_non_IPv4 i :: fst (main_loop idx n rest), snd (main_loop idx n rest)).
Proof.
  intros H. cbn [main_loop]. rewrite H.
  destruct (main_loop idx n rest). reflexivity.
Qed.

Lemma main_loop_no_gateway idx n i rest ip4 :
  IP_To4 (ParseCIDR (addr i)) = Some ip4 ->
  map_index idx (name i) = None ->
  main_loop idx n (i :: rest)
  = (log_skip_no_gateway i :: fst (main_loop idx n rest), snd (main_loop idx n rest)).
Proof.
  intros H Hg. cbn [main_loop]. rewrite H, Hg.
  destruct (main_loop idx n rest). reflexivity.
Qed.

Lemma main_loop_run_ok idx n i rest ip4 g :
  IP_To4 (ParseCIDR (addr i)) = Some ip4 ->
  map_index idx (name i) = Some g ->
  cmd_err (arping n (arping_args i (ParseCIDR (addr i)) (Some g))) = None ->
  main_loop idx n (i :: rest)
  = (log_executing i (ParseCIDR (addr i)) (Some g)
       :: exec_Command "arping" (arping_args i (ParseCIDR (addr i)) (Some g))
       :: fmt_Println (cmd_stdout (arping n (arping_args i (ParseCIDR (addr i)) (Some g))))
       :: fst (main_loop idx (S n) rest),
     snd (main_loop idx (S n) rest)).
Proof.
  intros H Hg He. cbn [main_loop]. rewrite H, Hg. unfold Cmd_Output. rewrite He.
  destruct (main_loop idx (S n) rest). reflexivity.
Qed.

Lemma main_loop_run_failed idx n i rest ip4 g e :
  IP_To4 (ParseCIDR (addr i)) = Some ip4 ->
  map_index idx (name i) = Some g ->
  cmd_err (arping n (arping_args i (ParseCIDR (addr i)) (Some g))) = Some e ->
  main_loop idx n (i :: rest)
  = ([log_executing i (ParseCIDR (addr i)) (Some g);
      exec_Command "arping" (arping_args i (ParseCIDR (addr i)) (Some g));
      log_Printf "Error running command: %s" [ArgError e]], 1%Z).
Proof.
  intros H Hg He. cbn [main_loop]. rewrite H, Hg. unfold Cmd_Output. rewrite He.
  reflexivity.
Qed.

(** Every command the loop runs is the probe of an address of the list that
    parses as IPv4 and whose interface has a gateway in the index. *)
Lemma main_loop_exec idx ifaces :
  forall n cmd args,
  In (exec_Command cmd args) (fst (main_loop idx n ifaces)) ->
  exists i ip4 g,
    In i ifaces
    /\ IP_To4 (ParseCIDR (addr i)) = Some ip4
    /\ map_index idx (name i) = Some g
    /\ cmd = "arping"
    /\ args = arping_args i (ParseCIDR (addr i)) (Some g).
Proof.
  induction ifaces as [|i rest IH]; intros n cmd args Hin; [destruct Hin|].
  destruct (IP_To4 (ParseCIDR (addr i))) as [ip4|] eqn:E4.
  - destruct (map_index idx (name i)) as [g|] eqn:Eg.
    + destruct (cmd_err (arping n (arping_args i (ParseCIDR (addr i)) (Some g))))
        as [e|] eqn:Ee.
      * rewrite (main_loop_run_failed _ _ _ _ _ _ _ E4 Eg Ee) in Hin.
        destruct Hin as [H|[H|[H|[]]]]; try discriminate H.
        injection H as <- <-. exists i, ip4, g. repeat split; auto. left; reflexivity.
      * rewrite (main_loop_run_ok _ _ _ _ _ _ E4 Eg Ee) in Hin.
        destruct Hin as [H|[H|[H|Hin]]]; try discriminate H.
        -- injection H as <- <-. exists i, ip4, g. repeat split; auto. left; reflexivity.
        -- destruct (IH _ _ _ Hin) as (j & j4 & jg & Hj & R).
           exists j, j4, jg. split; [right; exact Hj|exact R].
    + rewrite (main_loop_no_gateway _ _ _ _ _ E4 Eg) in Hin.
      destruct Hin as [H|Hin]; [discriminate H|].
      destruct (IH _ _ _ Hin) as (j & j4 & jg & Hj & R).
      exists j, j4, jg. split; [right; exact Hj|exact R].
  - rewrite (main_loop_non_IPv4 _ _ _ _ E4) in Hin.
    destruct Hin as [H|Hin]; [discriminate H|].
    destruct (IH _ _ _ Hin) as (j & j4 & jg & Hj & R).
    exists j, j4, jg. split; [right; exact Hj|exact R].
Qed.

(** The loop over a list in two parts: the second part is run only when the
    first ended without a failed command, and its commands are counted on
    from those of the first. *)
Lemma main_loop_app idx pre l :
  forall n,
  main_loop idx n (pre ++ l)
  = if (snd (main_loop idx n pre) =? 0)%Z
    then (fst (main_loop idx n pre)
            ++ fst (main_loop idx (n + execs (fst (main_loop idx n pre))) l),
          snd (main_loop idx (n + execs (fst (main_loop idx n pre))) l))
    else main_loop idx n pre.
Proof.
  induction pre as [|i pre IH]; intros n.
  - simpl. rewrite Nat.add_0_r. destruct (main_loop idx n l). reflexivity.
  - rewrite <- app_comm_cons.
    destruct (IP_To4 (ParseCIDR (addr i))) as [ip4|] eqn:E4.
    + destruct (map_index idx (name i)) as [g|] eqn:Eg.
      * destruct (cmd_err (arping n (arping_args i (ParseCIDR (addr i)) (Some g))))
          as [e|] eqn:Ee.
        -- rewrite !(main_loop_run_failed _ _ _ _ _ _ _ E4 Eg Ee). reflexivity.
        -- rewrite !(main_loop_run_ok _ _ _ _ _ _ E4 Eg Ee), IH. cbn [fst snd].
           destruct (snd (main_loop idx (S n) pre) =? 0)%Z; [|reflexivity].
           cbn [fst snd].
           change (execs (log_executing i ?p ?q :: ?a :: ?b :: ?x)) with (S (execs x)).
           rewrite <- Nat.add_succ_comm. reflexivity.
      * rewrite !(main_loop_no_gateway _ _ _ _ _ E4 Eg), IH. cbn [fst snd].
        destruct (snd (main_loop idx n pre) =? 0)%Z; reflexivity.
    + rewrite !(main_loop_non_IPv4 _ _ _ _ E4), IH. cbn [fst snd].
      destruct (snd (main_loop idx n pre) =? 0)%Z; reflexivity.
Qed.

(** C5.  Every command the dispatcher runs is the probe of one of the local
    addresses, one whose address parses as IPv4 and whose interface has a
    gateway, not [nil], in the index.  An address whose interface has no
    entry in the index (or a [nil] one) is passed over with one log entry,
    no command is run for it, and the addresses after it are processed as
    they would be without it. *)
Theorem probe_only_eligible (idx : gmap string IP) (n : nat) :
  (forall ifaces cmd args,
     In (exec_Command cmd args) (fst (main_loop idx n ifaces)) ->
     exists i ip4 g,
       In i ifaces
       /\ IP_To4 (ParseCIDR (addr i)) = Some ip4
       /\ idx !! name i = Some (Some g)
       /\ cmd = "arping"
       /\ args = arping_args i (ParseCIDR (addr i)) (Some g))
  /\ (forall i rest,
        idx !! name i = None \/ idx !! name i = Some None ->
        exists entry,
          (entry = log_skip_non_IPv4 i \/ entry = log_skip_no_gateway i)
          /\ main_loop idx n (i :: rest)
             = (entry :: fst (main_loop idx n rest), snd (main_loop idx n rest))).
Proof.
  split.
  - intros ifaces cmd args Hin.
    destruct (main_loop_exec _ _ _ _ _ Hin) as (i & ip4 & g & Hi & H4 & Hg & R).
    exists i, ip4, g. split; [exact Hi|]. split; [exact H4|]. split; [|exact R].
    unfold map_index in Hg. destruct (idx !! name i) as [[g'|]|]; try discriminate Hg.
    simpl in Hg. congruence.
  - intros i rest Hno.
    assert (Hg : map_index idx (name i) = None).
    { unfold map_index. unfold IP in *. destruct Hno as [-> | ->]; reflexivity. }
    destruct (IP_To4 (ParseCIDR (addr i))) as [ip4|] eqn:E4.
    + exists (log_skip_no_gateway i). split; [right; reflexivity|].
      eapply main_loop_no_gateway; eassumption.
    + exists (log_skip_non_IPv4 i). split; [left; reflexivity|].
      apply main_loop_non_IPv4. exact E4.
Qed.

(** C8, amended.  For a probe the dispatcher runs: when the command ends
    without an error, its standard output, and nothing of its standard
    error, is printed, and the loop goes on; when it fails, the error is
    logged, nothing of the command's output is printed, and the run ends
    with status 1. *)
Theorem tool_output_printed (idx : gmap string IP) (n : nat) (i : iface)
  (rest : list iface) (ip4 g : list byte) :
  IP_To4 (ParseCIDR (addr i)) = Some ip4 ->
  map_index idx (name i) = Some g ->
  let args := arping_args i (ParseCIDR (addr i)) (Some g) in
  match cmd_err (arping n args) with
  | None =>
      main_loop idx n (i :: rest)
      = (log_executing i (ParseCIDR (addr i)) (Some g)
           :: exec_Command "arping" args
           :: fmt_Println (cmd_stdout (arping n args))
           :: fst (main_loop idx (S n) rest),
         snd (main_loop idx (S n) rest))
  | Some e =>
      main_loop idx n (i :: rest)
      = ([log_executing i (ParseCIDR (addr i)) (Some g);
          exec_Command "arping" args;
          log_Printf "Error running command: %s" [ArgError e]], 1%Z)
  end.
Proof.
  intros H4 Hg args.
  destruct (cmd_err (arping n args)) as [e|] eqn:Ee.
  - eapply main_loop_run_failed; eassumption.
  - eapply main_loop_run_ok; eassumption.
Qed.

(** A table that cannot be read ends the program: the error is printed
    after what [GetRoutes] logged, and the process exits with status 1
    before any interface is listed. *)
Lemma main_fatal_on_route_error (file : string + error)
  (interfaces : list net_Interface + error) (e : error) :
  snd (snd (GetRoutes file)) = Some e ->
  main file interfaces
  = (fst (GetRoutes file) ++ [fmt_Printf "ERROR: %v" [ArgError e]], 1%Z).
Proof.
  intros H. unfold main, getDefaultRoutes.
  destruct (GetRoutes file) as [log [routes err]]. simpl in H. subst err.
  reflexivity.
Qed.

(** * Further properties *)

(** ** [parseIP]: what it accepts and what it answers *)

Lemma nibbles_add (a b : N) : a <= 15 -> b <= 15 ->
  N.lor (N.shiftl a 4) b = a * 16 + b.
Proof.
  intros Ha Hb.
  apply nibble_cases in Ha. apply nibble_cases in Hb.
  repeat (destruct Ha as [->|Ha]); try subst a;
  repeat (destruct Hb as [->|Hb]); try subst b; reflexivity.
Qed.

Lemma is_hex_digit_le c : is_hex_digit c = true <-> reverseHexTable c <= 15.
Proof. unfold is_hex_digit. apply N.leb_le. Qed.

Lemma is_hex_digit_ltb c : is_hex_digit c = negb (15 <? reverseHexTable c).
Proof.
  unfold is_hex_digit.
  destruct (N.leb_spec (reverseHexTable c) 15), (N.ltb_spec 15 (reverseHexTable c));
    try reflexivity; lia.
Qed.

(** The decoder gives no error exactly on an even number of hexadecimal
    digits, and then a byte for every two of them. *)
Lemma hex_Decode_None s :
  snd (hex_Decode s) = None <->
  string_forallb is_hex_digit s = true
  /\ String.length s = (2 * length (fst (hex_Decode s)))%nat.
Proof.
  induction s as [|c|p q r IH] using string_pair_ind.
  - simpl. tauto.
  - cbn [hex_Decode]. destruct (15 <? reverseHexTable c); simpl; split;
      try discriminate; intros [_ H]; discriminate H.
  - cbn [hex_Decode string_forallb]. rewrite !is_hex_digit_ltb.
    destruct (15 <? reverseHexTable p); cbn [negb andb fst snd].
    { split; [discriminate|intros [H _]; discriminate H]. }
    destruct (15 <? reverseHexTable q); cbn [negb andb fst snd].
    { split; [discriminate|intros [H _]; discriminate H]. }
    destruct (hex_Decode r) as [bs err]. cbn [fst snd length String.length] in *.
    rewrite IH. split; intros [H1 H2]; (split; [exact H1|lia]).
Qed.

(** On hexadecimal digits the only error is the odd length. *)
Lemma hex_Decode_digits s :
  string_forallb is_hex_digit s = true ->
  snd (hex_Decode s) = None \/ (snd (hex_Decode s) = Some hex_ErrLength
                                /\ Nat.Odd (String.length s)).
Proof.
  induction s as [|c|p q r IH] using string_pair_ind.
  - left. reflexivity.
  - cbn [hex_Decode string_forallb]. rewrite is_hex_digit_ltb.
    destruct (15 <? reverseHexTable c); [discriminate|].
    intros _. right. split; [reflexivity|]. exists 0%nat. reflexivity.
  - cbn [hex_Decode string_forallb]. rewrite !is_hex_digit_ltb.
    destruct (15 <? reverseHexTable p); [discriminate|].
    destruct (15 <? reverseHexTable q); [discriminate|].
    cbn [negb andb]. intros H. specialize (IH H).
    destruct (hex_Decode r) as [bs err]. cbn [fst snd String.length] in *.
    destruct IH as [IH|[IH [k Hk]]]; [left; exact IH|].
    right. split; [exact IH|]. exists (S k). lia.
Qed.

(** The first character of the text that is no hexadecimal digit is
    reported, by its byte. *)
Lemma hex_Decode_invalid s :
  string_forallb is_hex_digit s = false ->
  exists pre c post,
    s = pre +:+ String c post
    /\ string_forallb is_hex_digit pre = true
    /\ is_hex_digit c = false
    /\ snd (hex_Decode s) = Some (hex_InvalidByteError (byte_of_ascii c)).
Proof.
  induction s as [|c|p q r IH] using string_pair_ind.
  - discriminate.
  - cbn [hex_Decode string_forallb]. rewrite andb_true_r. intros H.
    exists EmptyString, c, EmptyString.
    split; [reflexivity|]. split; [reflexivity|]. split; [exact H|].
    rewrite is_hex_digit_ltb in H.
    destruct (15 <? reverseHexTable c); [reflexivity|discriminate H].
  - cbn [hex_Decode string_forallb].
    destruct (is_hex_digit p) eqn:Ep.
    + destruct (is_hex_digit q) eqn:Eq; cbn [andb].
      * intros H. destruct (IH H) as (pre & c & post & -> & Hpre & Hc & E).
        exists (String p (String q pre)), c, post.
        split; [sapp; reflexivity|].
        split; [cbn [string_forallb]; rewrite Ep, Eq, Hpre; reflexivity|].
        split; [exact Hc|].
        rewrite is_hex_digit_ltb in Ep, Eq.
        destruct (15 <? reverseHexTable p); [discriminate Ep|].
        destruct (15 <? reverseHexTable q); [discriminate Eq|].
        destruct (hex_Decode (pre +:+ String c post)) as [bs err]. exact E.
      * intros _. exists (String p EmptyString), q, r.
        split; [sapp; reflexivity|].
        split; [cbn [string_forallb]; rewrite Ep; reflexivity|].
        split; [exact Eq|].
        rewrite is_hex_digit_ltb in Ep, Eq.
        destruct (15 <? reverseHexTable p); [discriminate Ep|].
        destruct (15 <? reverseHexTable q); [reflexivity|discriminate Eq].
    + intros _. exists EmptyString, p, (String q r).
      split; [reflexivity|]. split; [reflexivity|]. split; [exact Ep|].
      rewrite is_hex_digit_ltb in Ep.
      destruct (15 <? reverseHexTable p); [reflexivity|discriminate Ep].
Qed.

(** What [parseIP] accepts is a valid field. *)
Lemma parseIP_None_valid s : snd (parseIP s) = None -> valid_field s = true.
Proof.
  unfold parseIP, hex_DecodeString, valid_field.
  pose proof (hex_Decode_None s) as HN.
  destruct (hex_Decode s) as [bs err] eqn:E. cbn [fst snd] in *.
  destruct err as [e|]; [discriminate|].
  destruct (proj1 HN eq_refl) as [Hd Hlen].
  destruct bs as [|b0 [|b1 [|b2 [|b3 [|b4 bs]]]]]; try discriminate.
  intros _. rewrite Hd, Hlen. reflexivity.
Qed.

(** [parseIP] answers an address of four bytes on eight hexadecimal digits
    and nothing else.  On other texts the address is [nil] and the error
    tells why: the first character of the text that is no hexadecimal
    digit, an odd number of digits, or a number of bytes other than four. *)
Theorem parseIP_answers (s : string) :
  (valid_field s = true ->
   exists a b c d, parseIP s = (Some [a; b; c; d], None))
  /\ (string_forallb is_hex_digit s = false ->
      exists pre c post,
        s = pre +:+ String c post
        /\ string_forallb is_hex_digit pre = true
        /\ is_hex_digit c = false
        /\ parseIP s = (None, Some (hex_InvalidByteError (byte_of_ascii c))))
  /\ (string_forallb is_hex_digit s = true -> Nat.Odd (String.length s) ->
      parseIP s = (None, Some hex_ErrLength))
  /\ (string_forallb is_hex_digit s = true -> Nat.Even (String.length s) ->
      String.length s <> 8%nat ->
      parseIP s = (None, Some ErrOnlyIPv4))
  /\ (snd (parseIP s) = None -> valid_field s = true).
Proof.
  split; [|split; [|split; [|split]]]; [| | | |apply parseIP_None_valid];
    unfold parseIP, hex_DecodeString, valid_field;
    pose proof (hex_Decode_None s) as HN.
  - intros H. apply andb_prop in H as [Hl Hd]. apply Nat.eqb_eq in Hl.
    destruct (hex_Decode_digits s Hd) as [E|[_ [k Hk]]]; [|lia].
    destruct (hex_Decode s) as [bs err]. cbn [fst snd] in *. subst err.
    destruct (proj1 HN eq_refl) as [_ Hlen].
    destruct bs as [|b0 [|b1 [|b2 [|b3 [|b4 bs]]]]]; simpl in Hlen; try lia.
    exists b3, b2, b1, b0. reflexivity.
  - intros H. destruct (hex_Decode_invalid s H) as (pre & c & post & Hs & Hpre & Hc & E).
    exists pre, c, post. split; [exact Hs|]. split; [exact Hpre|]. split; [exact Hc|].
    destruct (hex_Decode s) as [bs err]. cbn [snd] in E. subst err. reflexivity.
  - intros Hd [k Hk].
    destruct (hex_Decode_digits s Hd) as [E|[E _]].
    + destruct (proj1 HN E) as [_ Hlen]. lia.
    + destruct (hex_Decode s) as [bs err]. cbn [snd] in E. subst err. reflexivity.
  - intros Hd [k Hk] Hne.
    destruct (hex_Decode_digits s Hd) as [E|[_ [j Hj]]]; [|lia].
    destruct (proj1 HN E) as [_ Hlen].
    destruct (hex_Decode s) as [bs err]. cbn [fst snd] in *. subst err.
    destruct bs as [|b0 [|b1 [|b2 [|b3 [|b4 bs]]]]]; try reflexivity.
    simpl in Hlen. lia.
Qed.

(** What [parseIP] accepts, as eight digits and their values. *)
Lemma parseIP_Some_inv s ip :
  parseIP s = (ip, None) ->
  exists c1 c2 c3 c4 c5 c6 c7 c8,
    s = String c1 (String c2 (String c3 (String c4 (String c5 (String c6
          (String c7 (String c8 EmptyString)))))))
    /\ Forall (fun c => reverseHexTable c <= 15) [c1; c2; c3; c4; c5; c6; c7; c8]
    /\ ip = Some [N.lor (N.shiftl (reverseHexTable c7) 4) (reverseHexTable c8);
                  N.lor (N.shiftl (reverseHexTable c5) 4) (reverseHexTable c6);
                  N.lor (N.shiftl (reverseHexTable c3) 4) (reverseHexTable c4);
                  N.lor (N.shiftl (reverseHexTable c1) 4) (reverseHexTable c2)].
Proof.
  intros H.
  assert (Hv : valid_field s = true).
  { apply parseIP_None_valid. rewrite H. reflexivity. }
  unfold valid_field in Hv. apply andb_prop in Hv as [Hl Hd].
  apply Nat.eqb_eq in Hl.
  do 8 (destruct s as [|? s]; [discriminate Hl|]).
  destruct s; [|discriminate Hl]. clear Hl.
  cbn [string_forallb] in Hd.
  repeat (apply andb_prop in Hd; destruct Hd as [?%is_hex_digit_le Hd]).
  clear Hd.
  do 8 eexists. split; [reflexivity|]. split; [repeat constructor; assumption|].
  unfold parseIP, hex_DecodeString in H.
  rewrite !hex_Decode_pair in H by assumption. cbn [hex_Decode fst snd] in H.
  injection H as <-. reflexivity.
Qed.

(** The field is the address as a 32-bit number in hexadecimal, with the
    first byte of the address as its least significant byte. *)
Theorem parseIP_little_endian (s : string) (a b c d : byte) :
  parseIP s = (Some [a; b; c; d], None) ->
  hex_value s = a + 256 * b + 65536 * c + 16777216 * d.
Proof.
  intros H.
  destruct (parseIP_Some_inv _ _ H)
    as (c1 & c2 & c3 & c4 & c5 & c6 & c7 & c8 & -> & Hd & E).
  repeat (apply Forall_cons in Hd; destruct Hd as [? Hd]).
  rewrite !nibbles_add in E by assumption.
  injection E as -> -> -> ->.
  unfold hex_value. cbn [hex_value_from]. lia.
Qed.

Lemma reverseHexTable_zero c : reverseHexTable c = 0 -> c = "0"%char.
Proof.
  destruct c as [[] [] [] [] [] [] [] []]; vm_compute; intros H;
    try discriminate H; reflexivity.
Qed.

(** A destination that parses equals 0.0.0.0, as [getDefaultRoutes] tests
    it, exactly when its field is 00000000. *)
Theorem parseIP_default_destination (f : string) (ip : IP) :
  parseIP f = (ip, None) ->
  (IP_Equal ip zero = true <-> f = "00000000").
Proof.
  intros H. split.
  - destruct (parseIP_Some_inv _ _ H)
      as (c1 & c2 & c3 & c4 & c5 & c6 & c7 & c8 & -> & Hd & ->).
    repeat (apply Forall_cons in Hd; destruct Hd as [? Hd]).
    unfold IP_Equal, zero, bytes_eqb. cbn [IP_bytes default from_option id length Nat.eqb].
    intros E. apply bool_decide_eq_true_1 in E.
    injection E as E1 E2 E3 E4.
    repeat match goal with
           | E : N.lor (N.shiftl (reverseHexTable ?p) 4) (reverseHexTable ?q) = 0 |- _ =>
               let Hs := fresh in
               pose proof (nibbles_split (reverseHexTable p) (reverseHexTable q)
                             ltac:(assumption) ltac:(assumption)) as Hs;
               rewrite E in Hs; destruct Hs as [?%eq_sym%reverseHexTable_zero
                                                  ?%eq_sym%reverseHexTable_zero];
               clear E
           end.
    subst. reflexivity.
  - intros ->. injection H as <-. reflexivity.
Qed.

(** ** [GetRoutes]: line by line *)

Lemma ends_with_LF_app s : ends_with_LF s = true -> exists p, s = p +:+ nl.
Proof.
  induction s as [|c s IH]; [discriminate|].
  destruct s as [|c' s'].
  - simpl. intros H. apply Ascii.eqb_eq in H. subst c.
    exists EmptyString. reflexivity.
  - intros H. destruct (IH H) as [p Hp]. exists (String c p). sapp.
    rewrite Hp. reflexivity.
Qed.

Lemma terminatedb_terminated s : terminatedb s = true -> terminated s.
Proof.
  destruct s as [|c s]; [left; reflexivity|].
  intros H. right. apply ends_with_LF_app. exact H.
Qed.

Lemma count_LF_no_LF s : no_LF s = true -> count_LF s = 0%nat.
Proof.
  unfold no_LF. induction s as [|c s IH]; simpl; [reflexivity|].
  intros H. apply andb_prop in H as [Hc Hs].
  destruct (Ascii.eqb c LF); [discriminate|]. simpl. apply IH, Hs.
Qed.

(** A text is one unterminated line, or a first line, its newline and the
    rest. *)
Lemma string_split_LF s :
  no_LF s = true \/ exists l r, no_LF l = true /\ s = l +:+ nl +:+ r.
Proof.
  induction s as [|c s IH]; [left; reflexivity|].
  destruct (Ascii.eqb c LF) eqn:Ec.
  - apply Ascii.eqb_eq in Ec. subst c. right.
    exists EmptyString, s. split; reflexivity.
  - destruct IH as [H|(l & r & Hl & E)].
    + left. unfold no_LF in *. simpl. rewrite Ec, H. reflexivity.
    + right. exists (String c l), r. split.
      * unfold no_LF in *. simpl. rewrite Ec, Hl. reflexivity.
      * sapp. rewrite E. reflexivity.
Qed.

(** After the header, the body does the same to a line whatever the line
    number and the routes collected so far: the same error, or the same
    route added. *)
Lemma GetRoutes_body_acc line ln ln' rs :
  ln <> 0%nat -> ln' <> 0%nat ->
  GetRoutes_body line ln rs =
  match GetRoutes_body line ln' [] with
  | Return r => Return r
  | Next (_, r1) => Next (S ln, rs ++ r1)
  end.
Proof.
  intros H H'. unfold GetRoutes_body.
  destruct (length (strings_Fields line) <? 3)%nat; [reflexivity|].
  destruct (Nat.eqb_spec (S ln) 1); [lia|].
  destruct (Nat.eqb_spec (S ln') 1); [lia|].
  destruct (parseIP (nth 1 _ _)) as [ip [e|]]; [reflexivity|].
  destruct (parseIP (nth 2 _ _)) as [ip' [e|]]; reflexivity.
Qed.

Lemma GetRoutes_loop_acc scanner :
  forall ln ln' rs,
  ln <> 0%nat -> ln' <> 0%nat ->
  GetRoutes_loop scanner ln rs =
  match GetRoutes_loop scanner ln' [] with
  | (r, None) => (rs ++ r, None)
  | (x, Some e) => (x, Some e)
  end.
Proof.
  remember (Reader_unread scanner) as n eqn:Hn.
  revert scanner Hn. induction n as [n IH] using lt_wf_ind.
  intros scanner Hn ln ln' rs H H'.
  rewrite (GetRoutes_loop_eq scanner ln rs), (GetRoutes_loop_eq scanner ln' []).
  destruct (ReadString LF scanner) as [[line err] scanner'] eqn:Er.
  destruct (is_EOF err); [rewrite app_nil_r; reflexivity|].
  rewrite (GetRoutes_body_acc line ln ln' rs H H').
  destruct (GetRoutes_body line ln' []) as [res|[ln1 r1]] eqn:Eb.
  - destruct (GetRoutes_body_Return _ _ _ _ Eb) as [e ->]. reflexivity.
  - pose proof (GetRoutes_body_lineNum _ _ _ _ _ Eb) as ->.
    assert (Hlt : (Reader_unread scanner' < n)%nat).
    { apply ReadString_unread in Er.
      apply GetRoutes_body_Next, String_length_pos in Eb. lia. }
    rewrite (IH _ Hlt scanner' eq_refl (S ln) (S ln') (rs ++ r1)) by lia.
    rewrite (IH _ Hlt scanner' eq_refl (S ln') (S ln') r1) by lia.
    destruct (GetRoutes_loop scanner' (S ln') []) as [r [e|]]; [reflexivity|].
    rewrite app_assoc. reflexivity.
Qed.

(** Reading the header, and nothing else, collects nothing. *)
Lemma GetRoutes_loop_header h r :
  no_LF h = true ->
  snd (GetRoutes_loop (FileReader (h +:+ nl +:+ r)) 0 []) = None ->
  GetRoutes_loop (FileReader (h +:+ nl +:+ r)) 0 []
  = GetRoutes_loop (FileReader r) 1 [].
Proof.
  intros Hh. rewrite (GetRoutes_loop_line _ _ _ _ Hh). unfold GetRoutes_body.
  destruct (length (strings_Fields (h +:+ nl)) <? 3)%nat; [discriminate|].
  reflexivity.
Qed.

(** The first line is skipped without a look at what its fields are: two
    tables that differ in the header alone, each header of at least three
    fields, read the same. *)
Theorem GetRoutes_header_ignored (h h' r : string) :
  no_LF h = true -> no_LF h' = true ->
  (3 <= length (strings_Fields (h +:+ nl)))%nat ->
  (3 <= length (strings_Fields (h' +:+ nl)))%nat ->
  GetRoutes (inl (h +:+ nl +:+ r)) = GetRoutes (inl (h' +:+ nl +:+ r)).
Proof.
  intros Hh Hh' Hf Hf'. unfold GetRoutes. f_equal.
  rewrite (GetRoutes_loop_line _ _ _ _ Hh), (GetRoutes_loop_line _ _ _ _ Hh').
  unfold GetRoutes_body.
  destruct (Nat.ltb_spec (length (strings_Fields (h +:+ nl))) 3); [lia|].
  destruct (Nat.ltb_spec (length (strings_Fields (h' +:+ nl))) 3); [lia|].
  reflexivity.
Qed.

(** A line of fewer than three fields (an empty line too), anywhere in the
    table, the header included, fails the read when the lines before it
    were read without error: the error tells the number of fields and the
    line, no route is returned, and what follows the line is not looked
    at. *)
Theorem GetRoutes_wrong_fields (pre line rest : string) :
  terminatedb pre = true ->
  snd (snd (GetRoutes (inl pre))) = None ->
  no_LF line = true ->
  (length (strings_Fields (line +:+ nl)) < 3)%nat ->
  GetRoutes (inl (pre +:+ line +:+ nl +:+ rest))
  = ([], ([], Some (ErrWrongFields (strings_Fields (line +:+ nl)) (line +:+ nl)))).
Proof.
  intros Ht Hpre Hline Hf. unfold GetRoutes in *. simpl in Hpre. f_equal.
  rewrite (GetRoutes_loop_app _ (terminatedb_terminated _ Ht)).
  destruct (GetRoutes_loop (FileReader pre) 0 []) as [rs [e|]];
    [discriminate Hpre|].
  rewrite (GetRoutes_loop_line _ _ _ _ Hline). unfold GetRoutes_body.
  destruct (Nat.ltb_spec (length (strings_Fields (line +:+ nl))) 3); [|lia].
  reflexivity.
Qed.

Lemma GetRoutes_body_parse_error line lineNum routes f0 f1 f2 more e :
  lineNum <> 0%nat ->
  strings_Fields line = f0 :: f1 :: f2 :: more ->
  snd (parseIP f1) = Some e \/ (snd (parseIP f1) = None /\ snd (parseIP f2) = Some e) ->
  GetRoutes_body line lineNum routes = Return ([], Some e).
Proof.
  intros Hn Hf Hbad. unfold GetRoutes_body. rewrite Hf.
  cbn [length Nat.ltb Nat.leb nth].
  destruct (Nat.eqb_spec (S lineNum) 1) as [E|_]; [lia|].
  destruct Hbad as [H1|[H1 H2]].
  - destruct (parseIP f1) as [ip [e1|]]; [|discriminate H1].
    injection H1 as ->. reflexivity.
  - destruct (parseIP f1) as [ip [e1|]]; [discriminate H1|].
    destruct (parseIP f2) as [ip' [e2|]]; [|discriminate H2].
    injection H2 as ->. reflexivity.
Qed.

(** A data line whose destination does not parse fails the read with the
    error of the destination; one whose destination parses and whose gateway
    does not, with the error of the gateway; in both cases when the lines
    before it were read without error, with no route returned, and whatever
    follows the line. *)
Theorem GetRoutes_row_error (pre line rest f0 f1 f2 : string) (more : list string)
  (e : error) :
  snd (snd (GetRoutes (inl (pre +:+ nl)))) = None ->
  no_LF line = true ->
  strings_Fields (line +:+ nl) = f0 :: f1 :: f2 :: more ->
  snd (parseIP f1) = Some e \/ (snd (parseIP f1) = None /\ snd (parseIP f2) = Some e) ->
  GetRoutes (inl (pre +:+ nl +:+ line +:+ nl +:+ rest)) = ([], ([], Some e)).
Proof.
  intros Hpre Hline Hf Hbad. unfold GetRoutes in *. simpl in Hpre. f_equal.
  rewrite <- (app_assoc_s pre nl).
  rewrite (GetRoutes_loop_app _ (terminated_nl pre)).
  destruct (GetRoutes_loop (FileReader (pre +:+ nl)) 0 []) as [rs [e'|]];
    [discriminate Hpre|].
  rewrite (GetRoutes_loop_line _ _ _ _ Hline).
  rewrite (GetRoutes_body_parse_error _ _ _ _ _ _ _ _ (count_LF_nl_pos pre) Hf Hbad).
  reflexivity.
Qed.

(** A data line of at least three fields whose destination and gateway
    parse adds one route to those of the lines before it: the first field
    as the interface name, the two addresses, and nothing of the fields
    after the third. *)
Theorem GetRoutes_row (pre line f0 f1 f2 : string) (more : list string)
  (routes : list Route) (d g : IP) :
  GetRoutes (inl (pre +:+ nl)) = ([], (routes, None)) ->
  no_LF line = true ->
  strings_Fields (line +:+ nl) = f0 :: f1 :: f2 :: more ->
  parseIP f1 = (d, None) ->
  parseIP f2 = (g, None) ->
  GetRoutes (inl (pre +:+ nl +:+ line +:+ nl))
  = ([], (routes ++ [mkRoute f0 d g], None)).
Proof.
  intros Hpre Hline Hf Hd Hg. unfold GetRoutes in *. f_equal.
  injection Hpre as Hpre.
  rewrite <- (app_assoc_s pre nl).
  rewrite (GetRoutes_loop_app _ (terminated_nl pre)), Hpre.
  pose proof (GetRoutes_loop_line line EmptyString
                (0 + count_LF (pre +:+ nl)) routes Hline) as H.
  change (nl +:+ EmptyString) with nl in H. rewrite H.
  unfold GetRoutes_body. rewrite Hf. cbn [length Nat.ltb Nat.leb nth].
  destruct (Nat.eqb_spec (S (0 + count_LF (pre +:+ nl))) 1) as [E|_].
  { pose proof (count_LF_nl_pos pre). lia. }
  rewrite Hd, Hg. apply GetRoutes_loop_empty.
Qed.

Lemma GetRoutes_loop_count s :
  forall ln rs rs',
  GetRoutes_loop (FileReader s) ln rs = (rs', None) ->
  (length rs' + (if (ln =? 0)%nat && (0 <? count_LF s)%nat then 1 else 0)
   = length rs + count_LF s)%nat.
Proof.
  remember (String.length s) as n eqn:Hn.
  revert s Hn. induction n as [n IH] using lt_wf_ind.
  intros s Hn ln rs rs'.
  destruct (string_split_LF s) as [H|(l & r & Hl & ->)].
  - rewrite (GetRoutes_loop_last _ _ _ H), (count_LF_no_LF _ H).
    intros [= <-]. rewrite andb_false_r. reflexivity.
  - rewrite (GetRoutes_loop_line _ _ _ _ Hl), (count_LF_line _ _ Hl).
    unfold GetRoutes_body.
    destruct (length (strings_Fields (l +:+ nl)) <? 3)%nat; [discriminate|].
    assert (Hlt : (String.length r < n)%nat).
    { subst n. rewrite !length_app_s. simpl. lia. }
    destruct ln as [|ln]; cbn [Nat.eqb andb].
    + intros H. apply (IH _ Hlt r eq_refl) in H. cbn [Nat.eqb andb] in H.
      cbn [Nat.ltb Nat.leb]. lia.
    + destruct (parseIP (nth 1 _ _)) as [ip [e|]]; [discriminate|].
      destruct (parseIP (nth 2 _ _)) as [ip' [e|]]; [discriminate|].
      intros H. apply (IH _ Hlt r eq_refl) in H. cbn [Nat.eqb andb] in H.
      rewrite length_app in H. simpl in H. lia.
Qed.

(** A table read without error gives one route for every line that a
    newline ends, the first line, the header, left out. *)
Theorem GetRoutes_count (content : string) (routes : list Route) :
  GetRoutes (inl content) = ([], (routes, None)) ->
  length routes = (count_LF content - 1)%nat.
Proof.
  unfold GetRoutes. intros [= H]. apply GetRoutes_loop_count in H.
  cbn [Nat.eqb andb length] in H.
  destruct (Nat.ltb_spec 0 (count_LF content)); lia.
Qed.

(** Two tables under the same header, each read without error, read
    together as the routes of the first followed by those of the second. *)
Theorem GetRoutes_concat (h a b : string) (ra rb : list Route) :
  no_LF h = true ->
  terminatedb a = true ->
  GetRoutes (inl (h +:+ nl +:+ a)) = ([], (ra, None)) ->
  GetRoutes (inl (h +:+ nl +:+ b)) = ([], (rb, None)) ->
  GetRoutes (inl (h +:+ nl +:+ a +:+ b)) = ([], (ra ++ rb, None)).
Proof.
  intros Hh Ha. unfold GetRoutes. intros [= HA] [= HB]. f_equal.
  assert (HA0 : snd (GetRoutes_loop (FileReader (h +:+ nl +:+ a)) 0 []) = None)
    by (rewrite HA; reflexivity).
  assert (HB0 : snd (GetRoutes_loop (FileReader (h +:+ nl +:+ b)) 0 []) = None)
    by (rewrite HB; reflexivity).
  assert (HAB : GetRoutes_loop (FileReader (h +:+ nl +:+ a +:+ b)) 0 []
                = GetRoutes_loop (FileReader (a +:+ b)) 1 []).
  { rewrite (GetRoutes_loop_line _ _ _ _ Hh).
    rewrite (GetRoutes_loop_line _ _ _ _ Hh) in HA0. unfold GetRoutes_body in *.
    destruct (length (strings_Fields (h +:+ nl)) <? 3)%nat; [discriminate HA0|].
    reflexivity. }
  rewrite HAB.
  rewrite (GetRoutes_loop_header _ _ Hh HA0) in HA.
  rewrite (GetRoutes_loop_header _ _ Hh HB0) in HB.
  rewrite (GetRoutes_loop_app _ (terminatedb_terminated _ Ha)), HA.
  rewrite (GetRoutes_loop_acc (FileReader b) (1 + count_LF a) 1 ra) by lia.
  rewrite HB. reflexivity.
Qed.

(** When the routing table cannot be opened, [GetRoutes] logs the error of
    the open and goes on to read: the read of the file that is not there
    gives no line, and the function returns the error of a line without
    fields, with no route. *)
Theorem GetRoutes_not_opened (err : error) :
  GetRoutes (inr err)
  = ([log_Print [ArgString "Can't open route file: "; ArgError err]],
     ([], Some (ErrWrongFields [] EmptyString))).
Proof.
  unfold GetRoutes. rewrite GetRoutes_loop_eq. reflexivity.
Qed.

(** ** [getDefaultRoutes]: what the index depends on *)

Lemma getDefaultRoutes_loop_app a :
  forall b (m : gmap string IP),
  getDefaultRoutes_loop (a ++ b) m = getDefaultRoutes_loop b (getDefaultRoutes_loop a m).
Proof.
  induction a as [|r a IH]; intros b m; [reflexivity|].
  simpl. destruct (IP_Equal (Destination r) zero); apply IH.
Qed.

Lemma getDefaultRoutes_loop_filter routes :
  forall m : gmap string IP,
  getDefaultRoutes_loop routes m
  = getDefaultRoutes_loop (List.filter is_default routes) m.
Proof.
  induction routes as [|r routes IH]; intros m; [reflexivity|].
  simpl. unfold is_default at 1.
  destruct (IP_Equal (Destination r) zero) eqn:E; simpl; [rewrite E|]; apply IH.
Qed.

Lemma getDefaultRoutes_loop_none routes :
  forall m : gmap string IP,
  Forall (fun r => is_default r = false) routes ->
  getDefaultRoutes_loop routes m = m.
Proof.
  induction routes as [|r routes IH]; intros m H; [reflexivity|].
  apply Forall_cons in H as [Hr H]. simpl.
  unfold is_default in Hr. rewrite Hr. apply IH, H.
Qed.

(** The index is built from the routes to 0.0.0.0 alone, taken in order:
    the other routes can be left out, and routes read in two parts give the
    index of the second part laid over that of the first. *)
Theorem index_of_default_routes (a b : list Route) :
  getDefaultRoutes_loop (a ++ b) ∅
  = getDefaultRoutes_loop (List.filter is_default b)
      (getDefaultRoutes_loop (List.filter is_default a) ∅).
Proof.
  rewrite getDefaultRoutes_loop_app.
  rewrite (getDefaultRoutes_loop_filter a), (getDefaultRoutes_loop_filter b).
  reflexivity.
Qed.

(** ** [localAddresses]: records and log *)

Lemma localAddresses_loop_log ifaces :
  forall acc, fst (localAddresses_loop ifaces acc) = flat_map log_of ifaces.
Proof.
  induction ifaces as [|i rest IH]; intros acc; [reflexivity|].
  simpl. rewrite HardwareAddr_String_empty. unfold log_of at 1, has_HardwareAddr.
  destruct (HardwareAddr i) as [|b bs]; simpl; [apply IH|].
  destruct (Addrs i) as [addrs|err].
  - apply IH.
  - specialize (IH acc). destruct (localAddresses_loop rest acc) as [log l].
    simpl in *. rewrite IH. reflexivity.
Qed.

Lemma HardwareAddr_String_nonempty a :
  a <> [] -> HardwareAddr_String a <> EmptyString.
Proof. destruct a; [congruence|discriminate]. Qed.

(** A record is returned exactly for an address of an interface that has a
    hardware address and whose addresses could be listed; it carries the
    name of that interface and its hardware address as text, which is never
    empty. *)
Theorem localAddresses_member (ifaces : list net_Interface) (r : iface) :
  In r (fst (snd (localAddresses (inl ifaces)))) <->
  exists i addrs,
    In i ifaces /\ HardwareAddr i <> [] /\ Addrs i = inl addrs
    /\ In (addr r) addrs /\ name r = Name i
    /\ mac r = HardwareAddr_String (HardwareAddr i) /\ mac r <> EmptyString.
Proof.
  unfold localAddresses.
  pose proof (localAddresses_loop_records ifaces []) as H.
  destruct (localAddresses_loop ifaces []) as [log l]. simpl in *. subst l.
  rewrite in_flat_map. split.
  - intros (i & Hi & Hr). apply filter_In in Hi as [Hi Hm].
    unfold records_of in Hr. destruct (Addrs i) as [addrs|err] eqn:Ea; [|destruct Hr].
    apply in_map_iff in Hr as (a & <- & Ha).
    assert (Hne : HardwareAddr i <> []).
    { unfold has_HardwareAddr in Hm. destruct (HardwareAddr i); [discriminate|discriminate]. }
    exists i, addrs. simpl. repeat split; auto.
    apply HardwareAddr_String_nonempty, Hne.
  - intros (i & addrs & Hi & Hne & Ea & Ha & Hn & Hm & _).
    exists i. split.
    + apply filter_In. split; [exact Hi|].
      unfold has_HardwareAddr. destruct (HardwareAddr i); [congruence|reflexivity].
    + unfold records_of. rewrite Ea. apply in_map_iff. exists (addr r).
      split; [|exact Ha]. destruct r as [n m a]. simpl in *. subst. reflexivity.
Qed.

(** The enumerator logs one entry for every interface with a hardware
    address whose addresses cannot be listed, in the order of the
    interfaces, and nothing else; such an interface does not stop the
    enumeration. *)
Theorem localAddresses_logs (ifaces : list net_Interface) :
  fst (localAddresses (inl ifaces)) = flat_map log_of ifaces
  /\ snd (snd (localAddresses (inl ifaces))) = None.
Proof.
  unfold localAddresses.
  pose proof (localAddresses_loop_log ifaces []) as H.
  destruct (localAddresses_loop ifaces []) as [log l]. simpl in *.
  split; [exact H|reflexivity].
Qed.

(** ** The loop of [main]: commands, output and exit status *)

Lemma commands_app a b : commands (a ++ b) = commands a ++ commands b.
Proof. unfold commands. apply flat_map_app. Qed.

Lemma printed_app a b : printed (a ++ b) = printed a ++ printed b.
Proof. unfold printed. apply flat_map_app. Qed.

Lemma probe_of_Some idx i ip4 g :
  IP_To4 (ParseCIDR (addr i)) = Some ip4 ->
  map_index idx (name i) = Some g ->
  probe_of idx i = Some (arping_args i (ParseCIDR (addr i)) (Some g)).
Proof. intros H Hg. unfold probe_of. rewrite H, Hg. reflexivity. Qed.

Lemma probe_of_non_IPv4 idx i :
  IP_To4 (ParseCIDR (addr i)) = None -> probe_of idx i = None.
Proof. intros H. unfold probe_of. rewrite H. reflexivity. Qed.

Lemma probe_of_no_gateway idx i :
  map_index idx (name i) = None -> probe_of idx i = None.
Proof.
  intros H. unfold probe_of. rewrite H.
  destruct (IP_To4 (ParseCIDR (addr i))); reflexivity.
Qed.

(** While the commands of the addresses gone through end without an error,
    the loop goes on: it has run the probe of each of them that has one, in
    order, and nothing else. *)
Lemma main_loop_prefix idx pre :
  forall n,
  (forall k a, omap (probe_of idx) pre !! k = Some a ->
               cmd_err (arping (n + k) a) = None) ->
  snd (main_loop idx n pre) = 0%Z
  /\ commands (fst (main_loop idx n pre)) = omap (probe_of idx) pre
  /\ execs (fst (main_loop idx n pre)) = length (omap (probe_of idx) pre).
Proof.
  induction pre as [|i rest IH]; intros n Hok.
  - repeat split.
  - destruct (IP_To4 (ParseCIDR (addr i))) as [ip4|] eqn:E4.
    + destruct (map_index idx (name i)) as [g|] eqn:Eg.
      * cbn [omap list_omap] in Hok. rewrite (probe_of_Some _ _ _ _ E4 Eg) in Hok.
        assert (Ee : cmd_err (arping n (arping_args i (ParseCIDR (addr i)) (Some g)))
                     = None).
        { rewrite <- (Nat.add_0_r n) at 1. apply Hok. reflexivity. }
        rewrite (main_loop_run_ok _ _ _ _ _ _ E4 Eg Ee).
        destruct (IH (S n)) as (Hc & Hcmd & Hex).
        { intros k a Hk. rewrite Nat.add_succ_comm. apply Hok. exact Hk. }
        cbn [fst snd]. cbn [omap list_omap]. rewrite (probe_of_Some _ _ _ _ E4 Eg).
        split; [exact Hc|]. split.
        -- cbn [commands flat_map log_executing app].
           fold (commands (fst (main_loop idx (S n) rest))).
           rewrite Hcmd. reflexivity.
        -- unfold execs in *. cbn [is_exec List.filter log_executing app length].
           rewrite Hex. reflexivity.
      * cbn [omap list_omap] in Hok. rewrite (probe_of_no_gateway _ _ Eg) in Hok.
        rewrite (main_loop_no_gateway _ _ _ _ _ E4 Eg).
        destruct (IH n Hok) as (Hc & Hcmd & Hex). cbn [fst snd].
        cbn [omap list_omap]. rewrite (probe_of_no_gateway _ _ Eg).
        split; [exact Hc|]. split; [exact Hcmd|exact Hex].
    + cbn [omap list_omap] in Hok. rewrite (probe_of_non_IPv4 _ _ E4) in Hok.
      rewrite (main_loop_non_IPv4 _ _ _ _ E4).
      destruct (IH n Hok) as (Hc & Hcmd & Hex). cbn [fst snd].
      cbn [omap list_omap]. rewrite (probe_of_non_IPv4 _ _ E4).
      split; [exact Hc|]. split; [exact Hcmd|exact Hex].
Qed.

(** C6, amended.  For a local address that parses as IPv4 and whose
    interface has a gateway in the index, when none of the commands run for
    the addresses before it ended with an error, the dispatcher logs the
    probe and runs arping with exactly the arguments
    -U -c 1 -I <interface> -s <source address> <gateway>, right after the
    commands of the addresses before it and as the next invocation of the
    tool. *)
Theorem probe_arguments (idx : gmap string IP) (n : nat) (pre : list iface)
  (i : iface) (rest : list iface) (ip4 g : list byte) :
  (forall k a, omap (probe_of idx) pre !! k = Some a ->
               cmd_err (arping (n + k) a) = None) ->
  IP_To4 (ParseCIDR (addr i)) = Some ip4 ->
  map_index idx (name i) = Some g ->
  exists out tail,
    fst (main_loop idx n (pre ++ i :: rest))
    = out ++ log_executing i (ParseCIDR (addr i)) (Some g)
          :: exec_Command "arping"
               ["-U"; "-c"; "1"; "-I"; name i;
                "-s"; IP_String (ParseCIDR (addr i)); IP_String (Some g)]
          :: tail
    /\ commands out = omap (probe_of idx) pre
    /\ (tail = [fmt_Println
                  (cmd_stdout
                     (arping (n + length (omap (probe_of idx) pre))
                        ["-U"; "-c"; "1"; "-I"; name i;
                         "-s"; IP_String (ParseCIDR (addr i)); IP_String (Some g)]))]
               ++ fst (main_loop idx (S (n + length (omap (probe_of idx) pre))) rest)
        \/ exists e,
             cmd_err (arping (n + length (omap (probe_of idx) pre))
                        ["-U"; "-c"; "1"; "-I"; name i;
                         "-s"; IP_String (ParseCIDR (addr i)); IP_String (Some g)])
             = Some e
             /\ tail = [log_command_error e]).
Proof.
  intros Hok H4 Hg.
  destruct (main_loop_prefix idx pre n Hok) as (Hc & Hcmd & Hex).
  rewrite main_loop_app, Hc. cbn [Z.eqb fst]. rewrite Hex.
  exists (fst (main_loop idx n pre)).
  destruct (cmd_err (arping (n + length (omap (probe_of idx) pre))
                       (arping_args i (ParseCIDR (addr i)) (Some g)))) as [e|] eqn:Ee.
  - rewrite (main_loop_run_failed _ _ _ _ _ _ _ H4 Hg Ee).
    exists [log_command_error e]. split; [reflexivity|]. split; [exact Hcmd|].
    right. exists e. split; [exact Ee|reflexivity].
  - rewrite (main_loop_run_ok _ _ _ _ _ _ H4 Hg Ee). cbn [fst].
    eexists. split; [reflexivity|]. split; [exact Hcmd|]. left. reflexivity.
Qed.

(** With a tool that never fails the loop runs the probe of every address
    that has one, in order, prints the output of each, and ends with
    status 0. *)
Lemma main_loop_succeed idx ifaces :
  (forall k a, cmd_err (arping k a) = None) ->
  forall n,
  snd (main_loop idx n ifaces) = 0%Z
  /\ commands (fst (main_loop idx n ifaces)) = omap (probe_of idx) ifaces
  /\ printed (fst (main_loop idx n ifaces))
     = imap (fun k a => cmd_stdout (arping (n + k) a)) (omap (probe_of idx) ifaces).
Proof.
  intros Hok. induction ifaces as [|i rest IH]; intros n.
  - repeat split.
  - destruct (IP_To4 (ParseCIDR (addr i))) as [ip4|] eqn:E4.
    + destruct (map_index idx (name i)) as [g|] eqn:Eg.
      * rewrite (main_loop_run_ok _ _ _ _ _ _ E4 Eg (Hok _ _)).
        destruct (IH (S n)) as (Hc & Hcmd & Hpr). cbn [fst snd].
        cbn [omap list_omap]. rewrite (probe_of_Some _ _ _ _ E4 Eg).
        split; [exact Hc|]. split.
        -- cbn [commands flat_map log_executing app]. fold (commands (fst (main_loop idx (S n) rest))).
           rewrite Hcmd. reflexivity.
        -- cbn [printed flat_map log_executing app]. fold (printed (fst (main_loop idx (S n) rest))).
           rewrite Hpr. cbn [imap]. rewrite Nat.add_0_r. f_equal.
           apply imap_ext. intros k a _. simpl. rewrite Nat.add_succ_r. reflexivity.
      * rewrite (main_loop_no_gateway _ _ _ _ _ E4 Eg).
        destruct (IH n) as (Hc & Hcmd & Hpr). cbn [fst snd].
        cbn [omap list_omap]. rewrite (probe_of_no_gateway _ _ Eg).
        split; [exact Hc|]. split; [exact Hcmd|exact Hpr].
    + rewrite (main_loop_non_IPv4 _ _ _ _ E4).
      destruct (IH n) as (Hc & Hcmd & Hpr). cbn [fst snd].
      cbn [omap list_omap]. rewrite (probe_of_non_IPv4 _ _ E4).
      split; [exact Hc|]. split; [exact Hcmd|exact Hpr].
Qed.

Lemma commands_lookup_shift (n : nat) (a0 : list string) (l : list (list string)) :
  cmd_err (arping n a0) = None ->
  (forall k a, l !! k = Some a -> cmd_err (arping (S n + k) a) = None) ->
  forall k a, (a0 :: l) !! k = Some a -> cmd_err (arping (n + k) a) = None.
Proof.
  intros H0 Hl [|k] a Hk.
  - injection Hk as <-. rewrite Nat.add_0_r. exact H0.
  - rewrite <- Nat.add_succ_comm. apply Hl. exact Hk.
Qed.

Lemma printed_shift (n : nat) (a0 : list string) (l : list (list string)) :
  cmd_stdout (arping n a0) :: imap (fun k a => cmd_stdout (arping (S n + k) a)) l
  = imap (fun k a => cmd_stdout (arping (n + k) a)) (a0 :: l).
Proof.
  cbn [imap]. rewrite Nat.add_0_r. f_equal.
  apply imap_ext. intros k a _. simpl. rewrite Nat.add_succ_r. reflexivity.
Qed.

(** The loop ends with status 0 or 1.  With 0, every command run ended
    without an error, no failure was logged, and what was printed is the
    standard output of each command run, in order.  With 1, the last things
    done were a command and the log of the error that very invocation ended
    with: nothing is run, printed or logged after a failed command, the
    commands before it ended without an error, and what was printed is the
    standard output of each of those, so nothing of the failed command. *)
Theorem main_loop_exit (idx : gmap string IP) (n : nat) (ifaces : list iface) :
  (snd (main_loop idx n ifaces) = 0%Z
   /\ Forall (fun ev => is_command_error ev = false) (fst (main_loop idx n ifaces))
   /\ (forall k a, commands (fst (main_loop idx n ifaces)) !! k = Some a ->
                   cmd_err (arping (n + k) a) = None)
   /\ printed (fst (main_loop idx n ifaces))
      = imap (fun k a => cmd_stdout (arping (n + k) a))
          (commands (fst (main_loop idx n ifaces))))
  \/ (snd (main_loop idx n ifaces) = 1%Z
      /\ exists out a e,
           fst (main_loop idx n ifaces)
           = out ++ [exec_Command "arping" a; log_command_error e]
           /\ cmd_err (arping (n + length (commands out)) a) = Some e
           /\ Forall (fun ev => is_command_error ev = false) out
           /\ (forall k a', commands out !! k = Some a' ->
                            cmd_err (arping (n + k) a') = None)
           /\ printed (fst (main_loop idx n ifaces))
              = imap (fun k a' => cmd_stdout (arping (n + k) a')) (commands out)).
Proof.
  revert n. induction ifaces as [|i rest IH]; intros n.
  - left. split; [reflexivity|]. split; [constructor|].
    split; [intros k a [=]|reflexivity].
  - destruct (IP_To4 (ParseCIDR (addr i))) as [ip4|] eqn:E4.
    + destruct (map_index idx (name i)) as [g|] eqn:Eg.
      * destruct (cmd_err (arping n (arping_args i (ParseCIDR (addr i)) (Some g))))
          as [e|] eqn:Ee.
        -- rewrite (main_loop_run_failed _ _ _ _ _ _ _ E4 Eg Ee). right.
           split; [reflexivity|].
           exists [log_executing i (ParseCIDR (addr i)) (Some g)],
             (arping_args i (ParseCIDR (addr i)) (Some g)), e.
           split; [reflexivity|]. split; [cbn; rewrite Nat.add_0_r; exact Ee|].
           split; [constructor; [reflexivity|constructor]|].
           split; [intros k a' [=]|reflexivity].
        -- rewrite (main_loop_run_ok _ _ _ _ _ _ E4 Eg Ee). cbn [fst snd].
           destruct (IH (S n))
             as [(Hc & Hf & Hk & Hp)|(Hc & out & a & e & Ho & He & Hf & Hk & Hp)].
           ++ left. split; [exact Hc|]. split.
              { repeat (constructor; [reflexivity|]). exact Hf. }
              cbn [printed commands flat_map log_executing app].
              fold (printed (fst (main_loop idx (S n) rest))).
              fold (commands (fst (main_loop idx (S n) rest))).
              split.
              { apply commands_lookup_shift; [exact Ee|exact Hk]. }
              rewrite Hp. apply printed_shift.
           ++ right. split; [exact Hc|].
              exists (log_executing i (ParseCIDR (addr i)) (Some g)
                        :: exec_Command "arping"
                             (arping_args i (ParseCIDR (addr i)) (Some g))
                        :: fmt_Println
                             (cmd_stdout
                                (arping n (arping_args i (ParseCIDR (addr i)) (Some g))))
                        :: out), a, e.
              split; [rewrite Ho; reflexivity|].
              cbn [printed commands flat_map log_executing app length].
              fold (printed (fst (main_loop idx (S n) rest))).
              fold (commands out).
              split; [rewrite <- Nat.add_succ_comm; exact He|].
              split.
              { repeat (constructor; [reflexivity|]). exact Hf. }
              split.
              { apply commands_lookup_shift; [exact Ee|exact Hk]. }
              rewrite Hp. apply printed_shift.
      * rewrite (main_loop_no_gateway _ _ _ _ _ E4 Eg). cbn [fst snd].
        destruct (IH n)
          as [(Hc & Hf & Hk & Hp)|(Hc & out & a & e & Ho & He & Hf & Hk & Hp)].
        -- left. split; [exact Hc|].
           split; [constructor; [reflexivity|exact Hf]|]. split; [exact Hk|exact Hp].
        -- right. split; [exact Hc|].
           exists (log_skip_no_gateway i :: out), a, e.
           split; [rewrite Ho; reflexivity|]. split; [exact He|].
           split; [constructor; [reflexivity|exact Hf]|]. split; [exact Hk|exact Hp].
    + rewrite (main_loop_non_IPv4 _ _ _ _ E4). cbn [fst snd].
      destruct (IH n)
        as [(Hc & Hf & Hk & Hp)|(Hc & out & a & e & Ho & He & Hf & Hk & Hp)].
      * left. split; [exact Hc|].
        split; [constructor; [reflexivity|exact Hf]|]. split; [exact Hk|exact Hp].
      * right. split; [exact Hc|].
        exists (log_skip_non_IPv4 i :: out), a, e.
        split; [rewrite Ho; reflexivity|]. split; [exact He|].
        split; [constructor; [reflexivity|exact Hf]|]. split; [exact Hk|exact Hp].
Qed.

(** ** [main]: the whole program *)

Lemma commands_GetRoutes file : commands (fst (GetRoutes file)) = [].
Proof. destruct file; reflexivity. Qed.

Lemma printed_GetRoutes file : printed (fst (GetRoutes file)) = [].
Proof. destruct file; reflexivity. Qed.

Lemma commands_log_of ifaces : commands (flat_map log_of ifaces) = [].
Proof.
  induction ifaces as [|i rest IH]; [reflexivity|].
  simpl. rewrite commands_app, IH, app_nil_r. unfold log_of.
  destruct (has_HardwareAddr i); [|reflexivity].
  destruct (Addrs i); reflexivity.
Qed.

Lemma printed_log_of ifaces : printed (flat_map log_of ifaces) = [].
Proof.
  induction ifaces as [|i rest IH]; [reflexivity|].
  simpl. rewrite printed_app, IH, app_nil_r. unfold log_of.
  destruct (has_HardwareAddr i); [|reflexivity].
  destruct (Addrs i); reflexivity.
Qed.

(** What [main] does when the table is read and the interfaces are listed:
    the log of both, then the loop over the records, with the index of the
    routes. *)
Lemma main_unfold file ifaces routes :
  snd (GetRoutes file) = (routes, None) ->
  main file (inl ifaces)
  = (fst (GetRoutes file) ++ flat_map log_of ifaces
       ++ fst (main_loop (getDefaultRoutes_loop routes ∅) 0
                 (flat_map records_of (List.filter has_HardwareAddr ifaces))),
     snd (main_loop (getDefaultRoutes_loop routes ∅) 0
            (flat_map records_of (List.filter has_HardwareAddr ifaces)))).
Proof.
  intros H. unfold main, getDefaultRoutes.
  destruct (GetRoutes file) as [log [rs err]]. simpl in H. injection H as -> ->.
  unfold localAddresses.
  pose proof (localAddresses_loop_log ifaces []) as Hlog.
  pose proof (localAddresses_loop_records ifaces []) as Hrec.
  destruct (localAddresses_loop ifaces []) as [log' l]. simpl in *. subst log' l.
  destruct (main_loop _ _ _). reflexivity.
Qed.

(** When the routing table is read without error, the interfaces are listed
    and no command fails, the program runs, in order, the probe of every
    address of every interface with a hardware address that parses as IPv4
    and whose interface has a default route, with the gateway of the last
    such route; it prints the output of each and ends with status 0. *)
Theorem main_all_succeed (file : string + error) (ifaces : list net_Interface)
  (routes : list Route) :
  snd (GetRoutes file) = (routes, None) ->
  (forall k a, cmd_err (arping k a) = None) ->
  snd (main file (inl ifaces)) = 0%Z
  /\ commands (fst (main file (inl ifaces)))
     = omap (probe_of (getDefaultRoutes_loop routes ∅))
         (flat_map records_of (List.filter has_HardwareAddr ifaces))
  /\ printed (fst (main file (inl ifaces)))
     = imap (fun k a => cmd_stdout (arping k a)) (commands (fst (main file (inl ifaces)))).
Proof.
  intros Hr Hok. rewrite (main_unfold _ _ _ Hr). cbn [fst snd].
  destruct (main_loop_succeed (getDefaultRoutes_loop routes ∅)
              (flat_map records_of (List.filter has_HardwareAddr ifaces)) Hok 0)
    as (Hc & Hcmd & Hpr).
  rewrite !commands_app, !printed_app, commands_GetRoutes, printed_GetRoutes,
    commands_log_of, printed_log_of. cbn [app].
  split; [exact Hc|]. split; [exact Hcmd|]. rewrite Hpr, Hcmd. reflexivity.
Qed.

Lemma map_index_empty k : map_index ∅ k = None.
Proof. unfold map_index. rewrite lookup_empty. reflexivity. Qed.

Lemma main_loop_empty_index ifaces :
  forall n,
  snd (main_loop ∅ n ifaces) = 0%Z
  /\ commands (fst (main_loop ∅ n ifaces)) = []
  /\ printed (fst (main_loop ∅ n ifaces)) = [].
Proof.
  induction ifaces as [|i rest IH]; intros n; [repeat split|].
  destruct (IP_To4 (ParseCIDR (addr i))) as [ip4|] eqn:E4.
  - rewrite (main_loop_no_gateway _ _ _ _ _ E4 (map_index_empty _)). apply IH.
  - rewrite (main_loop_non_IPv4 _ _ _ _ E4). apply IH.
Qed.

(** When no route of the table has destination 0.0.0.0, the program runs no
    command and prints nothing, whatever the interfaces; when the interfaces
    can be listed it ends with status 0. *)
Theorem main_no_default_route (file : string + error)
  (interfaces : list net_Interface + error) (routes : list Route) :
  snd (GetRoutes file) = (routes, None) ->
  Forall (fun r => is_default r = false) routes ->
  commands (fst (main file interfaces)) = []
  /\ printed (fst (main file interfaces)) = []
  /\ (forall ifaces, interfaces = inl ifaces -> snd (main file interfaces) = 0%Z).
Proof.
  intros Hr Hnd. destruct interfaces as [ifaces|e].
  - rewrite (main_unfold _ _ _ Hr). cbn [fst snd].
    rewrite (getDefaultRoutes_loop_none _ _ Hnd).
    destruct (main_loop_empty_index
                (flat_map records_of (List.filter has_HardwareAddr ifaces)) 0)
      as (Hc & Hcmd & Hpr).
    rewrite !commands_app, !printed_app, commands_GetRoutes, printed_GetRoutes,
      commands_log_of, printed_log_of, Hcmd, Hpr.
    repeat split. intros _ _. exact Hc.
  - unfold main, getDefaultRoutes.
    pose proof (commands_GetRoutes file) as Hc.
    pose proof (printed_GetRoutes file) as Hp.
    destruct (GetRoutes file) as [log [rs err]]. simpl in Hr. injection Hr as -> ->.
    simpl in *. rewrite commands_app, printed_app, Hc, Hp.
    repeat split. intros ifaces [=].
Qed.

(** When the routing table is read without error and the interfaces cannot
    be listed, the program logs the error twice, once in the enumerator and
    once in [main], runs no command and ends with status 1. *)
Theorem main_fatal_on_interfaces_error (file : string + error) (e : error) :
  snd (snd (GetRoutes file)) = None ->
  main file (inr e)
  = (fst (GetRoutes file)
       ++ [log_Addrs_error e; log_Printf "Error getting interfaces: %s" [ArgError e]],
     1%Z).
Proof.
  intros H. unfold main, getDefaultRoutes.
  destruct (GetRoutes file) as [log [rs err]]. simpl in H. subst err.
  reflexivity.
Qed.

(** ** From the text of an address to the arguments *)

Lemma string_forallb_app f a b :
  string_forallb f (a +:+ b) = string_forallb f a && string_forallb f b.
Proof.
  induction a as [|c a IH]; sapp; simpl; [reflexivity|].
  rewrite IH, andb_assoc. reflexivity.
Qed.

Lemma string_forallb_impl (f g : ascii -> bool) s :
  (forall c, f c = true -> g c = true) ->
  string_forallb f s = true -> string_forallb g s = true.
Proof.
  intros Hfg. induction s as [|c s IH]; simpl; [reflexivity|].
  intros H. apply andb_prop in H as [Hc Hs]. rewrite (Hfg _ Hc), (IH Hs). reflexivity.
Qed.

Lemma appendDecimal_digits x :
  x <= 255 ->
  string_forallb (fun c => in_range 48 57 (N_of_ascii c)) (appendDecimal x) = true.
Proof.
  intros Hx. unfold appendDecimal.
  assert (H1 : x / 100 <= 9).
  { apply N.lt_succ_r. apply N.Div0.div_lt_upper_bound. lia. }
  assert (H2 : (x / 10) mod 10 <= 9).
  { pose proof (N.mod_upper_bound (x / 10) 10 ltac:(lia)). lia. }
  assert (H3 : x mod 10 <= 9).
  { pose proof (N.mod_upper_bound x 10 ltac:(lia)). lia. }
  assert (D : forall u, u <= 9 -> in_range 48 57 (N_of_ascii (digit u)) = true).
  { intros u Hu. rewrite (N_of_ascii_digit u Hu). unfold in_range.
    destruct (N.leb_spec 48 (48 + u)); [|lia].
    destruct (N.leb_spec (48 + u) 57); [reflexivity|lia]. }
  rewrite !string_forallb_app.
  destruct (100 <=? x); destruct (10 <=? x); simpl; rewrite ?D by assumption;
    reflexivity.
Qed.

Lemma cut_slash_app q m :
  string_forallb (fun c => negb (N_of_ascii c =? 47)) q = true ->
  cut_slash (q +:+ "/" +:+ m) = Some (q, m).
Proof.
  induction q as [|c q IH]; sapp; simpl; intros H; [reflexivity|].
  apply andb_prop in H as [Hc Hq].
  destruct (N_of_ascii c =? 47); [discriminate|].
  rewrite (IH Hq). reflexivity.
Qed.

Lemma dotted_quad_no_slash a b c d :
  a <= 255 -> b <= 255 -> c <= 255 -> d <= 255 ->
  string_forallb (fun c => negb (N_of_ascii c =? 47)) (dotted_quad a b c d) = true.
Proof.
  intros Ha Hb Hc Hd. unfold dotted_quad.
  assert (D : forall x, x <= 255 ->
    string_forallb (fun c => negb (N_of_ascii c =? 47)) (appendDecimal x) = true).
  { intros x Hx. eapply string_forallb_impl; [|apply appendDecimal_digits, Hx].
    intros ch. unfold in_range. simpl.
    destruct (N.leb_spec 48 (N_of_ascii ch)); [|discriminate].
    intros _. destruct (N.eqb_spec (N_of_ascii ch) 47); [lia|reflexivity]. }
  rewrite !string_forallb_app, !D by assumption. reflexivity.
Qed.

(** The address parser takes text that starts with decimal digits and a
    dot as IPv4 text. *)
Lemma ParseAddr_from_digits whole ds rest :
  string_forallb (fun c => in_range 48 57 (N_of_ascii c)) ds = true ->
  ParseAddr_from whole (ds +:+ "." +:+ rest)
  = match netip_parseIPv4 whole with
    | Some b => Some (b, 32)
    | None => None
    end.
Proof.
  induction ds as [|c ds IH]; sapp; simpl; intros H; [reflexivity|].
  apply andb_prop in H as [Hc Hds]. unfold in_range in Hc.
  destruct (N.leb_spec 48 (N_of_ascii c)); [|discriminate].
  destruct (N.leb_spec (N_of_ascii c) 57); [|discriminate].
  destruct (N.eqb_spec (N_of_ascii c) 46); [lia|].
  destruct (N.eqb_spec (N_of_ascii c) 58); [lia|].
  destruct (N.eqb_spec (N_of_ascii c) 37); [lia|].
  apply IH, Hds.
Qed.

Lemma dtoi_from_digit n i u rest :
  u <= 9 -> n * 10 + u < 16777215 ->
  dtoi_from n i (String (digit u) rest) = dtoi_from (n * 10 + u) (S i) rest.
Proof.
  intros Hu Hn. cbn [dtoi_from]. rewrite (N_of_ascii_digit u Hu). unfold in_range.
  destruct (N.leb_spec 48 (48 + u)); [|lia].
  destruct (N.leb_spec (48 + u) 57); [|lia]. cbn [andb].
  replace (48 + u - 48) with u by lia.
  destruct (N.leb_spec 16777215 (n * 10 + u)); [lia|]. reflexivity.
Qed.

(** [dtoi] reads the decimal text of a byte as that byte, to the end. *)
Lemma dtoi_decimal p :
  p <= 255 ->
  dtoi (appendDecimal p) = (p, String.length (appendDecimal p), true).
Proof.
  intros Hp.
  destruct (digit_cases p Hp) as (h & t & u & E & Hh & Ht & Hu).
  assert (Eh : p / 100 = h).
  { symmetry. apply (N.div_unique p 100 h (10 * t + u)); lia. }
  assert (Et : (p / 10) mod 10 = t).
  { assert (p / 10 = 10 * h + t) as ->
      by (symmetry; apply (N.div_unique p 10 (10 * h + t) u); lia).
    symmetry. apply (N.mod_unique (10 * h + t) 10 h t); lia. }
  assert (Eu : p mod 10 = u).
  { symmetry. apply (N.mod_unique p 10 (10 * h + t) u); lia. }
  unfold dtoi, appendDecimal. rewrite Eh, Et, Eu.
  destruct (N.leb_spec 100 p) as [H100|H100];
    destruct (N.leb_spec 10 p) as [H10|H10]; try lia; sapp.
  - rewrite !dtoi_from_digit by lia. simpl. repeat f_equal. lia.
  - rewrite !dtoi_from_digit by lia. simpl. repeat f_equal. lia.
  - rewrite !dtoi_from_digit by lia. simpl. repeat f_equal. lia.
Qed.

(** [ParseCIDR] on a dotted quad, a slash and a prefix length of at most 32:
    the address, in its 16-byte form. *)
Lemma ParseCIDR_dotted_quad a b c d p :
  a <= 255 -> b <= 255 -> c <= 255 -> d <= 255 -> p <= 32 ->
  ParseCIDR (dotted_quad a b c d +:+ "/" +:+ appendDecimal p)
  = Some (v4InV6Prefix ++ [a; b; c; d]).
Proof.
  intros Ha Hb Hc Hd Hp. unfold ParseCIDR.
  rewrite (cut_slash_app _ _ (dotted_quad_no_slash a b c d Ha Hb Hc Hd)).
  assert (HA : netip_ParseAddr (dotted_quad a b c d) = Some ([a; b; c; d], 32)).
  { unfold netip_ParseAddr. unfold dotted_quad at 2.
    rewrite (ParseAddr_from_digits _ _ _ (appendDecimal_digits a Ha)).
    rewrite (parseIPv4_dotted_quad a b c d Ha Hb Hc Hd). reflexivity. }
  rewrite HA, (dtoi_decimal p) by lia.
  rewrite Nat.eqb_refl. cbn [negb orb].
  destruct (N.ltb_spec 32 p); [lia|]. reflexivity.
Qed.

(** For a local address whose text is a dotted quad, a slash and a prefix
    length of at most 32, on an interface whose gateway in the index has
    four bytes, the loop logs and runs arping with the interface name, the
    dotted quad of the address after -s, and the dotted quad of the
    gateway. *)
Theorem main_loop_probe_text (idx : gmap string IP) (n : nat) (i : iface)
  (rest : list iface) (a b c d p g0 g1 g2 g3 : byte) :
  a <= 255 -> b <= 255 -> c <= 255 -> d <= 255 -> p <= 32 ->
  addr i = dotted_quad a b c d +:+ "/" +:+ appendDecimal p ->
  map_index idx (name i) = Some [g0; g1; g2; g3] ->
  exists tail,
    fst (main_loop idx n (i :: rest))
    = log_Printf ("Executing: arping -U -c 1 -I %s -s %s %s" +:+ nl)
        [ArgString (name i); ArgString (dotted_quad a b c d);
         ArgString (dotted_quad g0 g1 g2 g3)]
      :: exec_Command "arping"
           ["-U"; "-c"; "1"; "-I"; name i; "-s"; dotted_quad a b c d;
            dotted_quad g0 g1 g2 g3]
      :: tail.
Proof.
  intros Ha Hb Hc Hd Hp Haddr Hg.
  pose proof (ParseCIDR_dotted_quad a b c d p Ha Hb Hc Hd Hp) as HP.
  rewrite <- Haddr in HP.
  assert (H4 : IP_To4 (ParseCIDR (addr i)) = Some [a; b; c; d])
    by (rewrite HP; reflexivity).
  assert (HS : IP_String (ParseCIDR (addr i)) = dotted_quad a b c d)
    by (rewrite HP; reflexivity).
  destruct (cmd_err (arping n (arping_args i (ParseCIDR (addr i)) (Some [g0; g1; g2; g3]))))
    as [e|] eqn:Ee.
  - rewrite (main_loop_run_failed _ _ _ _ _ _ _ H4 Hg Ee).
    unfold log_executing, arping_args. rewrite HS. eexists. reflexivity.
  - rewrite (main_loop_run_ok _ _ _ _ _ _ H4 Hg Ee).
    unfold log_executing, arping_args. rewrite HS. eexists. reflexivity.
Qed.

End Program.

(** * Concrete runs *)

(** ** [parseIP] and the library routines *)

Example parseIP_gateway :
  parseIP "0101A8C0" = (Some [192; 168; 1; 1], None).
Proof. reflexivity. Qed.

Example parseIP_lower :
  parseIP "0101a8c0" = (Some [192; 168; 1; 1], None).
Proof. reflexivity. Qed.

Example parseIP_short :
  parseIP "0101A8" = (None, Some ErrOnlyIPv4).
Proof. reflexivity. Qed.

Example parseIP_odd :
  parseIP "0101A8C" = (None, Some hex_ErrLength).
Proof. reflexivity. Qed.

Example parseIP_bad_digit :
  parseIP "0101A8G0" = (None, Some (hex_InvalidByteError 71)).
Proof. reflexivity. Qed.

Example Fields_row :
  strings_Fields ("eth0" +:+ String "009"%char "00000000  0101A8C0 0003" +:+ nl)
  = ["eth0"; "00000000"; "0101A8C0"; "0003"].
Proof. reflexivity. Qed.

Example Fields_blank : strings_Fields (" " +:+ nl) = [].
Proof. reflexivity. Qed.

(** U+00A0 (bytes C2 A0) separates fields; a lone byte A0 does not. *)
Example Fields_nbsp :
  strings_Fields (String "a" (String "194" (String "160" (String "b" EmptyString))))
  = ["a"; "b"].
Proof. reflexivity. Qed.

Example Fields_stray_byte :
  strings_Fields (String "a" (String "160" (String "b" EmptyString)))
  = [String "a" (String "160" (String "b" EmptyString))].
Proof. reflexivity. Qed.

Example HardwareAddr_String_ex :
  HardwareAddr_String [0; 39; 14; 9; 127; 99] = "00:27:0e:09:7f:63".
Proof. reflexivity. Qed.

Example ParseCIDR_ex :
  ParseCIDR no_IPv6 "10.0.0.2/24"
  = Some [0; 0; 0; 0; 0; 0; 0; 0; 0; 0; 255; 255; 10; 0; 0; 2].
Proof. vm_compute. reflexivity. Qed.

Example ParseCIDR_bad :
  map (ParseCIDR no_IPv6)
      ["10.0.0.2"; "10.0.0.2/33"; "10.0.0.02/8"; "10.0.0/8"; "10.0.0.256/8";
       "10.0.0.2/"; "1.2.3.4.5/8"; "1..2.3/8"; "1.2.3.4/8x"; "fe80::1/64"]
  = [None; None; None; None; None; None; None; None; None; None].
Proof. vm_compute. reflexivity. Qed.

Example IP_String_ex :
  IP_String no_string6 (Some [192; 168; 1; 1]) = "192.168.1.1"
  /\ IP_String no_string6 (ParseCIDR no_IPv6 "10.0.0.2/24") = "10.0.0.2"
  /\ IP_String no_string6 None = "<nil>"
  /\ IP_String no_string6 (Some [1; 2; 255]) = "?0102ff".
Proof. vm_compute. repeat split. Qed.

(** ** The routing table *)

Example GetRoutes_table1 :
  GetRoutes (inl table1)
  = ([], ([mkRoute "eth0" (Some [0; 0; 0; 0]) (Some [192; 168; 1; 1]);
           mkRoute "eth0" (Some [172; 17; 0; 0]) (Some [192; 168; 1; 1])], None)).
Proof. vm_compute. reflexivity. Qed.

(** A failed open is logged; the read from the [nil] file then fails the
    field count, with no field. *)
Example GetRoutes_open_failed :
  GetRoutes (inr (os_error "no such file or directory"))
  = ([log_Print [ArgString "Can't open route file: ";
                 ArgError (os_error "no such file or directory")]],
     ([], Some (ErrWrongFields [] EmptyString))).
Proof. vm_compute. reflexivity. Qed.

(** C9 at the header and one data line that no newline ends: the data line,
    whose gateway has three bytes, is neither a route nor an error. *)
Lemma GetRoutes_unterminated_last_line_witness :
  no_LF "eth0 00000000 0101A8" = true
  /\ GetRoutes (inl (header1 +:+ nl +:+ "eth0 00000000 0101A8"))
     = GetRoutes (inl (header1 +:+ nl))
  /\ GetRoutes (inl "eth0 00000000 0101A8") = ([], ([], None)).
Proof.
  split; [reflexivity|].
  apply (GetRoutes_unterminated_last_line header1 "eth0 00000000 0101A8").
  reflexivity.
Defined.

(** C4, counterexample: a header of one field, and no data line, is an
    error. *)
Lemma GetRoutes_short_header_fails :
  GetRoutes (inl ("Iface" +:+ nl))
  = ([], ([], Some (ErrWrongFields ["Iface"] ("Iface" +:+ nl)))).
Proof. vm_compute. reflexivity. Qed.

(** C4 at the usual header. *)
Lemma GetRoutes_header_only_witness :
  no_LF header1 = true
  /\ (3 <= length (strings_Fields (header1 +:+ nl)))%nat
  /\ GetRoutes (inl (header1 +:+ nl)) = ([], ([], None))
  /\ GetRoutes (inl header1) = ([], ([], None)).
Proof.
  assert (H : no_LF header1 = true) by reflexivity.
  assert (H3 : (3 <= length (strings_Fields (header1 +:+ nl)))%nat)
    by (vm_compute; lia).
  split; [exact H|]. split; [exact H3|].
  destruct (GetRoutes_header_only header1 H) as (Hok & _ & Hlast).
  split; [exact (Hok H3)|exact Hlast].
Defined.



(** ** The round trip *)

(** C3, counterexample: both fields are valid and decode to 192.168.1.1; an
    encoder that writes lower-case digits does not give the first back, one
    that writes upper-case digits does not give the second back. *)
Lemma roundtrip_fails_across_letter_case :
  valid_field "0101A8C0" = true
  /\ valid_field "0101a8c0" = true
  /\ parseIP "0101A8C0" = (Some [192; 168; 1; 1], None)
  /\ parseIP "0101a8c0" = (Some [192; 168; 1; 1], None)
  /\ encodeIP false (fst (parseIP "0101A8C0")) = "0101a8c0"
  /\ encodeIP true (fst (parseIP "0101a8c0")) = "0101A8C0".
Proof. repeat split; reflexivity. Qed.

(** C3 at the kernel's spelling of 192.168.1.1 and an upper-case encoder. *)
Lemma parseIP_encodeIP_roundtrip_witness :
  String.length "0101A8C0" = 8%nat
  /\ string_forallb (is_hex_digit_of true) "0101A8C0" = true
  /\ exists ip, parseIP "0101A8C0" = (ip, None)
                /\ IP_len ip = 4%nat /\ encodeIP true ip = "0101A8C0".
Proof.
  split; [reflexivity|]. split; [reflexivity|].
  apply (parseIP_encodeIP_roundtrip true "0101A8C0"); reflexivity.
Defined.

(** ** The index *)

(** C10 at the index of the example table. *)
Lemma gateways_are_IPv4_witness :
  getDefaultRoutes (inl table1) = ([], Done {[ "eth0" := Some [192; 168; 1; 1] ]})
  /\ (forall ifname gw,
        ({[ "eth0" := Some [192; 168; 1; 1] ]} : gmap string IP) !! ifname = Some gw ->
        exists a b c d, gw = Some [a; b; c; d]
          /\ a <= 255 /\ b <= 255 /\ c <= 255 /\ d <= 255)
  /\ (forall i ip g,
        map_index {[ "eth0" := Some [192; 168; 1; 1] ]} (name i) = Some g ->
        exists a b c d, a <= 255 /\ b <= 255 /\ c <= 255 /\ d <= 255
          /\ g = [a; b; c; d]
          /\ last (arping_args no_string6 i ip (Some g)) = Some (dotted_quad a b c d)
          /\ netip_parseIPv4 (dotted_quad a b c d) = Some [a; b; c; d]).
Proof.
  assert (H : getDefaultRoutes (inl table1)
              = ([], Done {[ "eth0" := Some [192; 168; 1; 1] ]}))
    by (vm_compute; reflexivity).
  split; [exact H|].
  exact (gateways_are_IPv4 no_string6 (inl table1) [] _ H).
Defined.

(** ** The dispatcher *)

(** C6, counterexample: when the command of the first address fails, the
    run ends there with status 1; the second address parses as IPv4 and its
    interface has a gateway, and no command is run for it. *)
Lemma probe_after_failed_command :
  IP_To4 (ParseCIDR no_IPv6 (addr eth0_addr2)) = Some [10; 0; 0; 3]
  /\ map_index eth0_index (name eth0_addr2) = Some [10; 0; 0; 1]
  /\ main_loop no_IPv6 no_string6 tool_failing eth0_index 0 [eth0_addr; eth0_addr2]
     = (eth0_probe ++ [log_command_error (os_error "exit status 2")], 1%Z)
  /\ commands (fst (main_loop no_IPv6 no_string6 tool_failing eth0_index 0
                      [eth0_addr; eth0_addr2]))
     = [["-U"; "-c"; "1"; "-I"; "eth0"; "-s"; "10.0.0.2"; "10.0.0.1"]]
  /\ ~ In (exec_Command "arping"
             ["-U"; "-c"; "1"; "-I"; "eth0"; "-s"; "10.0.0.3"; "10.0.0.1"])
          (fst (main_loop no_IPv6 no_string6 tool_failing eth0_index 0
                  [eth0_addr; eth0_addr2])).
Proof.
  assert (H : main_loop no_IPv6 no_string6 tool_failing eth0_index 0
                [eth0_addr; eth0_addr2]
              = (eth0_probe ++ [log_command_error (os_error "exit status 2")], 1%Z))
    by (vm_compute; reflexivity).
  split; [vm_compute; reflexivity|]. split; [vm_compute; reflexivity|].
  split; [exact H|]. rewrite H. split; [vm_compute; reflexivity|].
  cbn [fst]. intros Hin.
  repeat (destruct Hin as [Hin|Hin]; [discriminate Hin|]). exact Hin.
Qed.

(** C6 at the spec's example, 10.0.0.2/24 on eth0 with gateway 10.0.0.1,
    after another address of eth0 that was probed and a loopback address
    that was skipped. *)
Lemma probe_arguments_witness :
  (forall k a, omap (probe_of no_IPv6 no_string6 eth0_index) [eth0_addr2; lo_addr] !! k
               = Some a ->
               cmd_err (tool_ok (0 + k) a) = None)
  /\ IP_To4 (ParseCIDR no_IPv6 (addr eth0_addr)) = Some [10; 0; 0; 2]
  /\ map_index eth0_index (name eth0_addr) = Some [10; 0; 0; 1]
  /\ exists out tail,
       fst (main_loop no_IPv6 no_string6 tool_ok eth0_index 0
              ([eth0_addr2; lo_addr] ++ eth0_addr :: []))
       = out ++ log_executing no_string6 eth0_addr
                  (ParseCIDR no_IPv6 (addr eth0_addr)) (Some [10; 0; 0; 1])
             :: exec_Command "arping"
                  ["-U"; "-c"; "1"; "-I"; "eth0"; "-s"; "10.0.0.2"; "10.0.0.1"]
             :: tail
       /\ commands out = [["-U"; "-c"; "1"; "-I"; "eth0"; "-s"; "10.0.0.3"; "10.0.0.1"]]
       /\ tail = [fmt_Println "ARPING 10.0.0.1"].
Proof.
  split; [intros k a _; reflexivity|].
  split; [vm_compute; reflexivity|]. split; [vm_compute; reflexivity|].
  destruct (probe_arguments no_IPv6 no_string6 tool_ok
              eth0_index 0 [eth0_addr2; lo_addr] eth0_addr [] [10; 0; 0; 2] [10; 0; 0; 1])
    as (out & tail & Ho & Hc & Ht).
  - intros k a _. reflexivity.
  - vm_compute. reflexivity.
  - vm_compute. reflexivity.
  - exists out, tail. split; [exact Ho|]. split; [rewrite Hc; vm_compute; reflexivity|].
    destruct Ht as [->|(e & He & _)]; [reflexivity|discriminate He].
Defined.

(** C8, counterexample: of a command that succeeds only the standard output
    is printed, not what it wrote to its standard error; of a command that
    fails nothing is printed. *)
Lemma stderr_is_not_printed :
  main_loop no_IPv6 no_string6 tool_ok eth0_index 0 [eth0_addr]
  = (eth0_probe ++ [fmt_Println "ARPING 10.0.0.1"], 0%Z)
  /\ printed (fst (main_loop no_IPv6 no_string6 tool_ok eth0_index 0 [eth0_addr]))
     = ["ARPING 10.0.0.1"]
  /\ cmd_stderr (tool_ok 0 (arping_args no_string6 eth0_addr
                              (ParseCIDR no_IPv6 (addr eth0_addr)) (Some [10; 0; 0; 1])))
     = "arping: warning"
  /\ main_loop no_IPv6 no_string6 tool_failing eth0_index 0 [eth0_addr]
     = (eth0_probe
          ++ [log_Printf "Error running command: %s" [ArgError (os_error "exit status 2")]],
        1%Z)
  /\ printed (fst (main_loop no_IPv6 no_string6 tool_failing eth0_index 0 [eth0_addr]))
     = [].
Proof. repeat split; vm_compute; reflexivity. Qed.

(** C8 at the probe of eth0 with a tool that succeeds. *)
Lemma tool_output_printed_witness :
  IP_To4 (ParseCIDR no_IPv6 (addr eth0_addr)) = Some [10; 0; 0; 2]
  /\ map_index eth0_index (name eth0_addr) = Some [10; 0; 0; 1]
  /\ main_loop no_IPv6 no_string6 tool_ok eth0_index 0 [eth0_addr]
     = (log_executing no_string6 eth0_addr (ParseCIDR no_IPv6 (addr eth0_addr))
          (Some [10; 0; 0; 1])
          :: exec_Command "arping"
               (arping_args no_string6 eth0_addr (ParseCIDR no_IPv6 (addr eth0_addr))
                  (Some [10; 0; 0; 1]))
          :: fmt_Println "ARPING 10.0.0.1"
          :: fst (main_loop no_IPv6 no_string6 tool_ok eth0_index 1 []),
        snd (main_loop no_IPv6 no_string6 tool_ok eth0_index 1 [])).
Proof.
  assert (H4 : IP_To4 (ParseCIDR no_IPv6 (addr eth0_addr)) = Some [10; 0; 0; 2])
    by (vm_compute; reflexivity).
  assert (Hg : map_index eth0_index (name eth0_addr) = Some [10; 0; 0; 1])
    by (vm_compute; reflexivity).
  split; [exact H4|]. split; [exact Hg|].
  exact (tool_output_printed no_IPv6 no_string6 tool_ok eth0_index 0 eth0_addr []
           [10; 0; 0; 2] [10; 0; 0; 1] H4 Hg).
Defined.

(** C5 on a run: lo has no gateway and is passed over with a log entry, eth0
    after it is probed. *)
Example main_loop_skips_lo :
  main_loop no_IPv6 no_string6 tool_ok eth0_index 0 [lo_addr; eth0_addr]
  = (log_Printf ("Skipping IP because couldn't find default gateway for its interface: %s (iface: %s)" +:+ nl)
       [ArgString "127.0.0.1/8"; ArgString "lo"]
       :: eth0_probe ++ [fmt_Println "ARPING 10.0.0.1"], 0%Z).
Proof. vm_compute. reflexivity. Qed.

(** The whole program on the table of the spec's example and two
    interfaces, eth0 with an IPv4 and an IPv6 address, lo without a hardware
    address. *)
Example main_run :
  main no_IPv6 no_string6 tool_ok (inl table1)
    (inl [mkInterface "eth0" [170; 187; 204; 221; 238; 255]
            (inl ["192.168.1.7/24"; "fe80::1/64"]);
          mkInterface "lo" [] (inl ["127.0.0.1/8"])])
  = ([log_Printf ("Executing: arping -U -c 1 -I %s -s %s %s" +:+ nl)
        [ArgString "eth0"; ArgString "192.168.1.7"; ArgString "192.168.1.1"];
      exec_Command "arping"
        ["-U"; "-c"; "1"; "-I"; "eth0"; "-s"; "192.168.1.7"; "192.168.1.1"];
      fmt_Println "ARPING 10.0.0.1";
      log_Printf ("Skipping non-IPv4 address: %s" +:+ nl) [ArgString "fe80::1/64"]], 0%Z).
Proof. vm_compute. reflexivity. Qed.

(** A table that cannot be parsed ends the program with status 1 before any
    interface is looked at. *)
Example main_bad_table :
  main no_IPv6 no_string6 tool_ok (inl (header1 +:+ nl +:+ "eth0 00000000 0101A8" +:+ nl))
    (inl [])
  = ([fmt_Printf "ERROR: %v" [ArgError ErrOnlyIPv4]], 1%Z).
Proof. vm_compute. reflexivity. Qed.

(** A table whose second data line has two fields: the route of the first
    data line is not returned. *)
Lemma GetRoutes_error_no_routes_witness :
  snd (snd (GetRoutes (inl (header1 +:+ nl +:+ "eth0 00000000 0101A8C0" +:+ nl
                            +:+ "eth0 000011AC" +:+ nl))))
  = Some (ErrWrongFields ["eth0"; "000011AC"] ("eth0 000011AC" +:+ nl))
  /\ fst (snd (GetRoutes (inl (header1 +:+ nl +:+ "eth0 00000000 0101A8C0" +:+ nl
                               +:+ "eth0 000011AC" +:+ nl)))) = [].
Proof.
  assert (H : snd (snd (GetRoutes (inl (header1 +:+ nl +:+ "eth0 00000000 0101A8C0" +:+ nl
                                        +:+ "eth0 000011AC" +:+ nl))))
              = Some (ErrWrongFields ["eth0"; "000011AC"] ("eth0 000011AC" +:+ nl)))
    by (vm_compute; reflexivity).
  split; [exact H|].
  exact (GetRoutes_error_no_routes _ _ H).
Defined.

(** The routing table cannot be opened. *)
Lemma main_fatal_on_route_error_witness :
  snd (snd (GetRoutes (inr (os_error "permission denied"))))
  = Some (ErrWrongFields [] EmptyString)
  /\ main no_IPv6 no_string6 tool_ok (inr (os_error "permission denied")) (inl [])
     = ([log_Print [ArgString "Can't open route file: ";
                    ArgError (os_error "permission denied")];
         fmt_Printf "ERROR: %v" [ArgError (ErrWrongFields [] EmptyString)]], 1%Z).
Proof.
  assert (H : snd (snd (GetRoutes (inr (os_error "permission denied"))))
              = Some (ErrWrongFields [] EmptyString))
    by (vm_compute; reflexivity).
  split; [exact H|].
  exact (main_fatal_on_route_error no_IPv6 no_string6 tool_ok
           (inr (os_error "permission denied")) (inl []) _ H).
Defined.

(** * Further concrete runs *)

(** The program never looks at what the tool writes to its standard error:
    two tools that give the same standard output and the same error at
    every run give the same run of the program. *)
Theorem main_ignores_stderr (netip_parseIPv6 : string -> option (list byte))
  (netip_string6 : list byte -> string) (tool tool' : nat -> list string -> CmdResult)
  (file : string + error) (interfaces : list net_Interface + error) :
  (forall k a, cmd_stdout (tool k a) = cmd_stdout (tool' k a)
               /\ cmd_err (tool k a) = cmd_err (tool' k a)) ->
  main netip_parseIPv6 netip_string6 tool file interfaces
  = main netip_parseIPv6 netip_string6 tool' file interfaces.
Proof.
  intros H.
  assert (L : forall idx ifaces n,
             main_loop netip_parseIPv6 netip_string6 tool idx n ifaces
             = main_loop netip_parseIPv6 netip_string6 tool' idx n ifaces).
  { intros idx ifaces. induction ifaces as [|i rest IH]; intros n; [reflexivity|].
    cbn [main_loop]. rewrite !IH. unfold Cmd_Output.
    destruct (IP_To4 _); [|reflexivity].
    destruct (map_index idx (name i)) as [g|]; [|reflexivity].
    destruct (H n (arping_args netip_string6 i
                     (ParseCIDR netip_parseIPv6 (addr i)) (Some g))) as [-> ->].
    reflexivity. }
  unfold main. destruct (getDefaultRoutes file) as [out [idx|code]]; [|reflexivity].
  destruct (localAddresses interfaces) as [log [ifaces [e|]]]; [reflexivity|].
  rewrite L. reflexivity.
Qed.

Lemma main_ignores_stderr_witness :
  (forall k a, cmd_stdout (tool_ok k a) = cmd_stdout (tool_ok_quiet k a)
               /\ cmd_err (tool_ok k a) = cmd_err (tool_ok_quiet k a))
  /\ main no_IPv6 no_string6 tool_ok (inl table1)
       (inl [mkInterface "eth0" [170; 187; 204; 221; 238; 255] (inl ["192.168.1.7/24"])])
     = main no_IPv6 no_string6 tool_ok_quiet (inl table1)
         (inl [mkInterface "eth0" [170; 187; 204; 221; 238; 255] (inl ["192.168.1.7/24"])]).
Proof.
  assert (H : forall k a, cmd_stdout (tool_ok k a) = cmd_stdout (tool_ok_quiet k a)
                          /\ cmd_err (tool_ok k a) = cmd_err (tool_ok_quiet k a))
    by (intros; split; reflexivity).
  split; [exact H|].
  exact (main_ignores_stderr no_IPv6 no_string6 tool_ok tool_ok_quiet _ _ H).
Defined.

(** The kernel's spelling of 192.168.1.1 is the number 0x0101A8C0. *)
Lemma parseIP_little_endian_witness :
  parseIP "0101A8C0" = (Some [192; 168; 1; 1], None)
  /\ hex_value "0101A8C0" = 192 + 256 * 168 + 65536 * 1 + 16777216 * 1.
Proof.
  assert (H : parseIP "0101A8C0" = (Some [192; 168; 1; 1], None)) by reflexivity.
  split; [exact H|].
  exact (parseIP_little_endian "0101A8C0" 192 168 1 1 H).
Defined.

(** The destination of the second row of the example table parses and is
    not 00000000: it does not equal 0.0.0.0. *)
Lemma parseIP_default_destination_witness :
  parseIP "000011AC" = (Some [172; 17; 0; 0], None)
  /\ (IP_Equal (Some [172; 17; 0; 0]) zero = true <-> "000011AC" = "00000000").
Proof.
  assert (H : parseIP "000011AC" = (Some [172; 17; 0; 0], None)) by reflexivity.
  split; [exact H|].
  exact (parseIP_default_destination "000011AC" (Some [172; 17; 0; 0]) H).
Defined.

(** An empty line between two rows. *)
Lemma GetRoutes_wrong_fields_witness :
  terminatedb (header1 +:+ nl +:+ "eth0 00000000 0101A8C0" +:+ nl) = true
  /\ snd (snd (GetRoutes (inl (header1 +:+ nl +:+ "eth0 00000000 0101A8C0" +:+ nl)))) = None
  /\ no_LF EmptyString = true
  /\ (length (strings_Fields (EmptyString +:+ nl)) < 3)%nat
  /\ GetRoutes (inl ((header1 +:+ nl +:+ "eth0 00000000 0101A8C0" +:+ nl)
                     +:+ EmptyString +:+ nl +:+ "eth0 000011AC 00000000" +:+ nl))
     = ([], ([], Some (ErrWrongFields (strings_Fields (EmptyString +:+ nl))
                                      (EmptyString +:+ nl)))).
Proof.
  assert (H1 : terminatedb (header1 +:+ nl +:+ "eth0 00000000 0101A8C0" +:+ nl) = true)
    by reflexivity.
  assert (H2 : snd (snd (GetRoutes (inl (header1 +:+ nl +:+ "eth0 00000000 0101A8C0"
                                         +:+ nl)))) = None)
    by (vm_compute; reflexivity).
  assert (H3 : no_LF EmptyString = true) by reflexivity.
  assert (H4 : (length (strings_Fields (EmptyString +:+ nl)) < 3)%nat)
    by (vm_compute; lia).
  split; [exact H1|]. split; [exact H2|]. split; [exact H3|]. split; [exact H4|].
  exact (GetRoutes_wrong_fields _ EmptyString ("eth0 000011AC 00000000" +:+ nl)
           H1 H2 H3 H4).
Defined.

(** A destination with a letter that is no hexadecimal digit. *)
Lemma GetRoutes_row_error_witness :
  snd (snd (GetRoutes (inl (header1 +:+ nl)))) = None
  /\ no_LF "eth0 0000000G 0101A8C0" = true
  /\ strings_Fields ("eth0 0000000G 0101A8C0" +:+ nl) = ["eth0"; "0000000G"; "0101A8C0"]
  /\ snd (parseIP "0000000G") = Some (hex_InvalidByteError 71)
  /\ GetRoutes (inl (header1 +:+ nl +:+ "eth0 0000000G 0101A8C0" +:+ nl
                     +:+ "eth0 000011AC 00000000" +:+ nl))
     = ([], ([], Some (hex_InvalidByteError 71))).
Proof.
  assert (H0 : snd (snd (GetRoutes (inl (header1 +:+ nl)))) = None)
    by (vm_compute; reflexivity).
  repeat (split; [first [exact H0 | reflexivity]|]).
  apply (GetRoutes_row_error header1 "eth0 0000000G 0101A8C0"
           ("eth0 000011AC 00000000" +:+ nl) "eth0" "0000000G" "0101A8C0" []).
  - exact H0.
  - reflexivity.
  - reflexivity.
  - left. reflexivity.
Defined.

(** A row as the kernel writes it, with the fields after the gateway. *)
Lemma GetRoutes_row_witness :
  GetRoutes (inl (header1 +:+ nl)) = ([], ([], None))
  /\ no_LF "eth0 00000000 0101A8C0 0003 0 0 100 00000000 0 0 0" = true
  /\ strings_Fields ("eth0 00000000 0101A8C0 0003 0 0 100 00000000 0 0 0" +:+ nl)
     = ["eth0"; "00000000"; "0101A8C0"; "0003"; "0"; "0"; "100"; "00000000"; "0"; "0"; "0"]
  /\ parseIP "00000000" = (Some [0; 0; 0; 0], None)
  /\ parseIP "0101A8C0" = (Some [192; 168; 1; 1], None)
  /\ GetRoutes (inl (header1 +:+ nl
                     +:+ "eth0 00000000 0101A8C0 0003 0 0 100 00000000 0 0 0" +:+ nl))
     = ([], ([] ++ [mkRoute "eth0" (Some [0; 0; 0; 0]) (Some [192; 168; 1; 1])], None)).
Proof.
  assert (H0 : GetRoutes (inl (header1 +:+ nl)) = ([], ([], None)))
    by (vm_compute; reflexivity).
  repeat (split; [first [exact H0 | reflexivity]|]).
  apply (GetRoutes_row header1 "eth0 00000000 0101A8C0 0003 0 0 100 00000000 0 0 0"
           "eth0" "00000000" "0101A8C0"
           ["0003"; "0"; "0"; "100"; "00000000"; "0"; "0"; "0"]).
  - exact H0.
  - reflexivity.
  - reflexivity.
  - reflexivity.
  - reflexivity.
Defined.

(** The example table: three lines, two routes. *)
Lemma GetRoutes_count_witness :
  GetRoutes (inl table1)
  = ([], ([mkRoute "eth0" (Some [0; 0; 0; 0]) (Some [192; 168; 1; 1]);
           mkRoute "eth0" (Some [172; 17; 0; 0]) (Some [192; 168; 1; 1])], None))
  /\ length [mkRoute "eth0" (Some [0; 0; 0; 0]) (Some [192; 168; 1; 1]);
             mkRoute "eth0" (Some [172; 17; 0; 0]) (Some [192; 168; 1; 1])]
     = (count_LF table1 - 1)%nat.
Proof.
  assert (H : GetRoutes (inl table1)
              = ([], ([mkRoute "eth0" (Some [0; 0; 0; 0]) (Some [192; 168; 1; 1]);
                       mkRoute "eth0" (Some [172; 17; 0; 0]) (Some [192; 168; 1; 1])],
                      None)))
    by (vm_compute; reflexivity).
  split; [exact H|].
  exact (GetRoutes_count table1 _ H).
Defined.

(** The example table as its two rows, each under the header. *)
Lemma GetRoutes_concat_witness :
  no_LF header1 = true
  /\ terminatedb ("eth0 00000000 0101A8C0" +:+ nl) = true
  /\ GetRoutes (inl (header1 +:+ nl +:+ "eth0 00000000 0101A8C0" +:+ nl))
     = ([], ([mkRoute "eth0" (Some [0; 0; 0; 0]) (Some [192; 168; 1; 1])], None))
  /\ GetRoutes (inl (header1 +:+ nl +:+ "eth0 000011AC 0101A8C0" +:+ nl))
     = ([], ([mkRoute "eth0" (Some [172; 17; 0; 0]) (Some [192; 168; 1; 1])], None))
  /\ GetRoutes (inl (header1 +:+ nl +:+ ("eth0 00000000 0101A8C0" +:+ nl)
                     +:+ "eth0 000011AC 0101A8C0" +:+ nl))
     = ([], ([mkRoute "eth0" (Some [0; 0; 0; 0]) (Some [192; 168; 1; 1])]
             ++ [mkRoute "eth0" (Some [172; 17; 0; 0]) (Some [192; 168; 1; 1])], None)).
Proof.
  assert (HA : GetRoutes (inl (header1 +:+ nl +:+ "eth0 00000000 0101A8C0" +:+ nl))
               = ([], ([mkRoute "eth0" (Some [0; 0; 0; 0]) (Some [192; 168; 1; 1])], None)))
    by (vm_compute; reflexivity).
  assert (HB : GetRoutes (inl (header1 +:+ nl +:+ "eth0 000011AC 0101A8C0" +:+ nl))
               = ([], ([mkRoute "eth0" (Some [172; 17; 0; 0]) (Some [192; 168; 1; 1])], None)))
    by (vm_compute; reflexivity).
  split; [reflexivity|]. split; [reflexivity|]. split; [exact HA|]. split; [exact HB|].
  exact (GetRoutes_concat header1 ("eth0 00000000 0101A8C0" +:+ nl)
           ("eth0 000011AC 0101A8C0" +:+ nl) _ _ eq_refl eq_refl HA HB).
Defined.

(** The example table, eth0 with an IPv4 and an IPv6 address, lo without a
    hardware address, and a tool that does not fail: one probe. *)
Lemma main_all_succeed_witness :
  snd (GetRoutes (inl table1))
  = ([mkRoute "eth0" (Some [0; 0; 0; 0]) (Some [192; 168; 1; 1]);
      mkRoute "eth0" (Some [172; 17; 0; 0]) (Some [192; 168; 1; 1])], None)
  /\ (forall k a, cmd_err (tool_ok k a) = None)
  /\ snd (main no_IPv6 no_string6 tool_ok (inl table1)
            (inl [mkInterface "eth0" [170; 187; 204; 221; 238; 255]
                    (inl ["192.168.1.7/24"; "fe80::1/64"]);
                  mkInterface "lo" [] (inl ["127.0.0.1/8"])])) = 0%Z
  /\ commands (fst (main no_IPv6 no_string6 tool_ok (inl table1)
                      (inl [mkInterface "eth0" [170; 187; 204; 221; 238; 255]
                              (inl ["192.168.1.7/24"; "fe80::1/64"]);
                            mkInterface "lo" [] (inl ["127.0.0.1/8"])])))
     = [["-U"; "-c"; "1"; "-I"; "eth0"; "-s"; "192.168.1.7"; "192.168.1.1"]].
Proof.
  assert (H : snd (GetRoutes (inl table1))
              = ([mkRoute "eth0" (Some [0; 0; 0; 0]) (Some [192; 168; 1; 1]);
                  mkRoute "eth0" (Some [172; 17; 0; 0]) (Some [192; 168; 1; 1])], None))
    by (vm_compute; reflexivity).
  assert (Hok : forall k a, cmd_err (tool_ok k a) = None) by (intros; reflexivity).
  split; [exact H|]. split; [exact Hok|].
  destruct (main_all_succeed no_IPv6 no_string6 tool_ok (inl table1)
              [mkInterface "eth0" [170; 187; 204; 221; 238; 255]
                 (inl ["192.168.1.7/24"; "fe80::1/64"]);
               mkInterface "lo" [] (inl ["127.0.0.1/8"])] _ H Hok) as (Hc & Hcmd & _).
  split; [exact Hc|]. rewrite Hcmd. vm_compute. reflexivity.
Defined.

(** A table whose only route goes to 172.17.0.0. *)
Lemma main_no_default_route_witness :
  snd (GetRoutes (inl (header1 +:+ nl +:+ "eth0 000011AC 00000000" +:+ nl)))
  = ([mkRoute "eth0" (Some [172; 17; 0; 0]) (Some [0; 0; 0; 0])], None)
  /\ Forall (fun r => is_default r = false)
       [mkRoute "eth0" (Some [172; 17; 0; 0]) (Some [0; 0; 0; 0])]
  /\ commands (fst (main no_IPv6 no_string6 tool_ok
                      (inl (header1 +:+ nl +:+ "eth0 000011AC 00000000" +:+ nl))
                      (inl [mkInterface "eth0" [170; 187; 204; 221; 238; 255]
                              (inl ["172.17.0.2/16"])]))) = []
  /\ snd (main no_IPv6 no_string6 tool_ok
            (inl (header1 +:+ nl +:+ "eth0 000011AC 00000000" +:+ nl))
            (inl [mkInterface "eth0" [170; 187; 204; 221; 238; 255]
                    (inl ["172.17.0.2/16"])])) = 0%Z.
Proof.
  assert (H : snd (GetRoutes (inl (header1 +:+ nl +:+ "eth0 000011AC 00000000" +:+ nl)))
              = ([mkRoute "eth0" (Some [172; 17; 0; 0]) (Some [0; 0; 0; 0])], None))
    by (vm_compute; reflexivity).
  assert (Hd : Forall (fun r => is_default r = false)
                 [mkRoute "eth0" (Some [172; 17; 0; 0]) (Some [0; 0; 0; 0])])
    by (repeat constructor).
  split; [exact H|]. split; [exact Hd|].
  destruct (main_no_default_route no_IPv6 no_string6 tool_ok _
              (inl [mkInterface "eth0" [170; 187; 204; 221; 238; 255]
                      (inl ["172.17.0.2/16"])]) _ H Hd) as (Hc & _ & Hs).
  split; [exact Hc|exact (Hs _ eq_refl)].
Defined.

(** The interfaces cannot be listed. *)
Lemma main_fatal_on_interfaces_error_witness :
  snd (snd (GetRoutes (inl table1))) = None
  /\ main no_IPv6 no_string6 tool_ok (inl table1) (inr (os_error "route ip+net: no such network interface"))
     = ([] ++ [log_Addrs_error (os_error "route ip+net: no such network interface");
               log_Printf "Error getting interfaces: %s"
                 [ArgError (os_error "route ip+net: no such network interface")]], 1%Z).
Proof.
  assert (H : snd (snd (GetRoutes (inl table1))) = None) by (vm_compute; reflexivity).
  split; [exact H|].
  exact (main_fatal_on_interfaces_error no_IPv6 no_string6 tool_ok (inl table1) _ H).
Defined.

(** 10.0.0.2/24 on eth0 with the gateway 10.0.0.1. *)
Lemma main_loop_probe_text_witness :
  addr eth0_addr = dotted_quad 10 0 0 2 +:+ "/" +:+ appendDecimal 24
  /\ map_index eth0_index (name eth0_addr) = Some [10; 0; 0; 1]
  /\ exists tail,
       fst (main_loop no_IPv6 no_string6 tool_ok eth0_index 0 [eth0_addr])
       = log_Printf ("Executing: arping -U -c 1 -I %s -s %s %s" +:+ nl)
           [ArgString "eth0"; ArgString "10.0.0.2"; ArgString "10.0.0.1"]
         :: exec_Command "arping"
              ["-U"; "-c"; "1"; "-I"; "eth0"; "-s"; "10.0.0.2"; "10.0.0.1"]
         :: tail.
Proof.
  assert (Ha : addr eth0_addr = dotted_quad 10 0 0 2 +:+ "/" +:+ appendDecimal 24)
    by reflexivity.
  assert (Hg : map_index eth0_index (name eth0_addr) = Some [10; 0; 0; 1])
    by (vm_compute; reflexivity).
  split; [exact Ha|]. split; [exact Hg|].
  exact (main_loop_probe_text no_IPv6 no_string6 tool_ok eth0_index 0 eth0_addr []
           10 0 0 2 24 10 0 0 1
           ltac:(lia) ltac:(lia) ltac:(lia) ltac:(lia) ltac:(lia) Ha Hg).
Defined.

(** The kernel's header and a header of three words, over the same row. *)
Lemma GetRoutes_header_ignored_witness :
  no_LF header1 = true
  /\ no_LF "Iface Destination Gateway Flags RefCnt Use Metric Mask MTU Window IRTT" = true
  /\ (3 <= length (strings_Fields (header1 +:+ nl)))%nat
  /\ (3 <= length (strings_Fields
                    ("Iface Destination Gateway Flags RefCnt Use Metric Mask MTU Window IRTT"
                     +:+ nl)))%nat
  /\ GetRoutes (inl (header1 +:+ nl +:+ "eth0 00000000 0101A8C0" +:+ nl))
     = GetRoutes (inl ("Iface Destination Gateway Flags RefCnt Use Metric Mask MTU Window IRTT"
                       +:+ nl +:+ "eth0 00000000 0101A8C0" +:+ nl)).
Proof.
  assert (H3 : (3 <= length (strings_Fields (header1 +:+ nl)))%nat)
    by (vm_compute; lia).
  assert (H3' : (3 <= length (strings_Fields
                    ("Iface Destination Gateway Flags RefCnt Use Metric Mask MTU Window IRTT"
                     +:+ nl)))%nat)
    by (vm_compute; lia).
  split; [reflexivity|]. split; [reflexivity|]. split; [exact H3|]. split; [exact H3'|].
  exact (GetRoutes_header_ignored header1
           "Iface Destination Gateway Flags RefCnt Use Metric Mask MTU Window IRTT"
           ("eth0 00000000 0101A8C0" +:+ nl) eq_refl eq_refl H3 H3').
Defined.
